(** * build-scripts: locating, loading and merging the user configuration

    A shallow embedding of [packages/build-scripts/src/utils/loadConfig.ts]
    and the properties of its four functions: [mergeModeConfig],
    [resolveConfigFile], [loadConfig] and [executeTypescriptModule].

    JavaScript objects used as maps are [gmap string _]; arrays are lists;
    the file system, the [require] cache and the calls made to the module
    loaders and to the compiler are threaded through a small state and
    exception monad. JavaScript strings are modelled by [string]. *)

From Stdlib Require Import ZArith Ascii String.
From stdpp Require Import base option list strings pretty gmap fin_maps.

Local Open Scope string_scope.
Local Open Scope list_scope.
Local Open Scope Z_scope.

Set Warnings "-register-all".

(** ** JavaScript values *)

(** The values a loaded configuration, a plugin option or a module export
    can hold. Functions and object identity are not represented. *)
Inductive Value : Type :=
  | VUndefined
  | VNull
  | VBool (b : bool)
  | VNum (n : Z)
  | VStr (s : string)
  | VArr (l : list Value)
  | VObj (m : gmap string Value).

(** [v === undefined || v === null], the test behind [?.] and [??]. *)
Definition nullish (v : Value) : bool :=
  match v with
  | VUndefined | VNull => true
  | _ => false
  end.

(** [v?.default]: property read that yields [undefined] on a nullish
    receiver and on a receiver that has no such property. *)
Definition optDefault (v : Value) : Value :=
  match v with
  | VObj m => default VUndefined (m !! "default")
  | _ => VUndefined
  end.

(** [a ?? b] *)
Definition coalesce (a b : Value) : Value :=
  if nullish a then b else a.

(** ** Configuration data (types.ts) *)

(** Modelled from the spec: the declaration of [PluginList] in [types.ts] is
    not part of the sources at hand. A plugin entry is either a bare plugin
    identifier or a pair of an identifier and an options object. *)
Inductive PluginEntry : Type :=
  | PluginName (name : string)
  | PluginPair (name : string) (options : Value).

(** Modelled from the spec: [ModeConfig] of [types.ts] maps a mode name to a
    partial [UserConfig]; in a partial configuration [plugins] may be absent,
    which is what [Array.isArray(plugins)] tests. [pc_fields] holds the
    top-level fields other than [plugins] and [modeConfig]. *)
Inductive PartialConfig : Type :=
  mkPartialConfig {
    pc_plugins : option (list PluginEntry);
    pc_modeConfig : option (gmap string PartialConfig);
    pc_fields : gmap string Value
  }.

(** Modelled from the spec: [UserConfig<K>] of [types.ts], a record with a
    required ordered list [plugins], an optional [modeConfig] mapping and
    arbitrary further fields ([fields], the [K] part). *)
Record UserConfig : Type :=
  mkUserConfig {
    plugins : list PluginEntry;
    modeConfig : option (gmap string PartialConfig);
    fields : gmap string Value
  }.

(** ** mergeModeConfig *)

Module Merge.

(** [Array.isArray(pluginInfo) ? pluginInfo[0] : pluginInfo] *)
Definition pluginKey (pluginInfo : PluginEntry) : string :=
  match pluginInfo with
  | PluginName name => name
  | PluginPair name _ => name
  end.

(** [Array.prototype.indexOf] on an array of strings, searching from
    position [from]: the first index holding [key], or [-1]. *)
Fixpoint indexOfFrom (from : Z) (keys : list string) (key : string) : Z :=
  match keys with
  | [] => -1
  | k :: rest =>
      if String.eqb k key then from else indexOfFrom (from + 1) rest key
  end.

Definition indexOf (keys : list string) (key : string) : Z :=
  indexOfFrom 0 keys key.

(** The body of the [plugins.forEach] callback. [pluginKeys] is the list
    computed once from the base list before the loop; [userPlugins] is the
    array being updated. The assignment [userPlugins[pluginIndex] = ...] is
    always in range, since [pluginKeys] is as long as the base list and
    [userPlugins] never shrinks. *)
Definition forEachBody (pluginKeys : list string)
    (userPlugins : list PluginEntry) (pluginInfo : PluginEntry)
    : list PluginEntry :=
  let pluginName := pluginKey pluginInfo in
  let pluginIndex := indexOf pluginKeys pluginName in
  if -1 <? pluginIndex
  then <[Z.to_nat pluginIndex := pluginInfo]> userPlugins
  else userPlugins ++ [pluginInfo].

(** Lines 25-43: the copy of [userConfig.plugins] after the mode's plugin
    list, when it is an array, has been folded into it. *)
Definition mergePlugins (base : list PluginEntry)
    (overridePlugins : option (list PluginEntry)) : list PluginEntry :=
  let userPlugins := base in
  match overridePlugins with
  | Some plugins =>
      let pluginKeys := map pluginKey userPlugins in
      foldl (forEachBody pluginKeys) userPlugins plugins
  | None => userPlugins
  end.

(** [{ ...userConfig, ...basicConfig, plugins: userPlugins }] where
    [basicConfig] is the mode's entry without its [plugins]: a field of the
    entry wins over the field of the same name in [userConfig]. *)
Definition spread (userConfig : UserConfig) (override : PartialConfig)
    (userPlugins : list PluginEntry) : UserConfig :=
  {| plugins := userPlugins;
     modeConfig :=
       match pc_modeConfig override with
       | Some mc => Some mc
       | None => modeConfig userConfig
       end;
     fields := pc_fields override ∪ fields userConfig |}.

(** A string is truthy when it is not empty. *)
Definition truthyString (s : string) : bool :=
  negb (String.eqb s "").

Definition mergeModeConfig (mode : string) (userConfig : UserConfig)
    : UserConfig :=
  match modeConfig userConfig with
  | Some mc =>
      if truthyString mode then
        match mc !! mode with
        | Some override =>
            spread userConfig override
              (mergePlugins (plugins userConfig) (pc_plugins override))
        | None => userConfig
        end
      else userConfig
  | None => userConfig
  end.

(** *** The reconciled list, stated position by position *)

(** The first position of [key] in [keys], if any. *)
Definition firstIndexOf (keys : list string) (key : string) : option nat :=
  fst <$> list_find (λ k, k = key) keys.

(** What stands at position [j] once the mode's plugins are merged in: the
    last entry of the mode's list whose identifier first occurs at [j] in
    [keys], the identifiers of the base list; the base entry [b] when there
    is none. *)
Definition entryAt (keys : list string) (plugins : list PluginEntry)
    (j : nat) (b : PluginEntry) : PluginEntry :=
  default b
    (last (filter (λ e, firstIndexOf keys (pluginKey e) = Some j) plugins)).

(** The base list with its entries replaced in place, followed by every
    entry of the mode's list whose identifier is not one of the base list,
    in listed order. *)
Definition reconciled (base plugins : list PluginEntry) : list PluginEntry :=
  imap (entryAt (map pluginKey base) plugins) base
    ++ filter (λ e, pluginKey e ∉ map pluginKey base) plugins.

End Merge.

(** ** String primitives of the JavaScript runtime *)

Module JsString.

(** [s.endsWith(suffix)]: some tail of [s] is [suffix]. *)
Fixpoint endsWith (s suffix : string) : bool :=
  String.eqb s suffix
  || match s with
     | EmptyString => false
     | String _ s' => endsWith s' suffix
     end.

(** [Array.prototype.some] *)
Definition some {A} (f : A → bool) (l : list A) : bool := existsb f l.

(** When [pat] is a prefix of [s], what follows it. *)
Fixpoint dropPrefix (pat s : string) : option string :=
  match pat, s with
  | EmptyString, _ => Some s
  | String a pat', String b s' =>
      if Ascii.eqb a b then dropPrefix pat' s' else None
  | String _ _, EmptyString => None
  end.

(** The text before and the text after the first occurrence of [pat] in
    [s]; [None] when [s.indexOf(pat)] is [-1]. *)
Fixpoint splitFirst (s pat : string) : option (string * string) :=
  match dropPrefix pat s with
  | Some following => Some (EmptyString, following)
  | None =>
      match s with
      | EmptyString => None
      | String c s' =>
          match splitFirst s' pat with
          | Some (preceding, following) => Some (String c preceding, following)
          | None => None
          end
      end
  end.

(** [s.includes(pat)] *)
Definition includes (s pat : string) : bool :=
  match splitFirst s pat with
  | Some _ => true
  | None => false
  end.

(** The abstract operation [GetSubstitution] for a string pattern, which has
    no capture groups: in the replacement template [$$] stands for a dollar
    sign, [$&] for the matched text, [$`] for the text before the match and
    [$'] for the text after it; any other dollar sign is literal. *)
Fixpoint getSubstitution (matched preceding following template : string)
    : string :=
  match template with
  | EmptyString => EmptyString
  | String c rest =>
      if Ascii.eqb c "$" then
        match rest with
        | String d rest' =>
            if Ascii.eqb d "$" then
              String "$" (getSubstitution matched preceding following rest')
            else if Ascii.eqb d "&" then
              matched +:+ getSubstitution matched preceding following rest'
            else if Ascii.eqb d "`" then
              preceding +:+ getSubstitution matched preceding following rest'
            else if Ascii.eqb d "'" then
              following +:+ getSubstitution matched preceding following rest'
            else String c (getSubstitution matched preceding following rest)
        | EmptyString => String c EmptyString
        end
      else String c (getSubstitution matched preceding following rest)
  end.

(** [s.replace(pat, template)] with a string pattern: only the first
    occurrence of [pat] is replaced. *)
Definition replace (s pat template : string) : string :=
  match splitFirst s pat with
  | Some (preceding, following) =>
      preceding +:+ getSubstitution pat preceding following template
        +:+ following
  | None => s
  end.

End JsString.

(** ** Paths (the POSIX flavour of Node's [path] module) *)

Module Path.

Definition isAbsolute (p : string) : bool :=
  match p with
  | String c _ => Ascii.eqb c "/"
  | EmptyString => false
  end.

(** The pieces of [s] between slashes. *)
Fixpoint segments (s : string) : list string :=
  match s with
  | EmptyString => [EmptyString]
  | String c s' =>
      if Ascii.eqb c "/" then EmptyString :: segments s'
      else match segments s' with
           | seg :: more => String c seg :: more
           | [] => [String c EmptyString]
           end
  end.

(** One step of [normalizeString]: empty and [.] segments vanish, [..]
    removes the segment before it, or is kept when there is none and the
    path is relative. *)
Definition normalizeStep (allowAboveRoot : bool) (acc : list string)
    (seg : string) : list string :=
  if String.eqb seg "" || String.eqb seg "." then acc
  else if String.eqb seg ".." then
    match last acc with
    | Some top =>
        if String.eqb top ".."
        then (if allowAboveRoot then acc ++ [seg] else acc)
        else removelast acc
    | None => if allowAboveRoot then acc ++ [seg] else acc
    end
  else acc ++ [seg].

Definition joinSegments (l : list string) : string :=
  match l with
  | [] => EmptyString
  | seg :: more => foldl (λ acc x, acc +:+ "/" +:+ x) seg more
  end.

Definition normalizeString (p : string) (allowAboveRoot : bool) : string :=
  joinSegments (foldl (normalizeStep allowAboveRoot) [] (segments p)).

(** The loop of [path.resolve], over the arguments from the last to the
    first: prepend arguments until an absolute one has been prepended. *)
Fixpoint resolveLoop (reversedArgs : list string) (resolvedPath : string)
    : string * bool :=
  match reversedArgs with
  | [] => (resolvedPath, false)
  | p :: more =>
      if String.eqb p "" then resolveLoop more resolvedPath
      else
        let resolvedPath' := p +:+ "/" +:+ resolvedPath in
        if isAbsolute p then (resolvedPath', true)
        else resolveLoop more resolvedPath'
  end.

(** [path.resolve(...args)] in a process whose working directory is
    [cwd]. *)
Definition resolve (cwd : string) (args : list string) : string :=
  let '(resolvedPath, resolvedAbsolute) :=
    resolveLoop (rev args ++ [cwd]) EmptyString in
  let normalized := normalizeString resolvedPath (negb resolvedAbsolute) in
  if resolvedAbsolute then "/" +:+ normalized
  else if String.eqb normalized "" then "." else normalized.

End Path.

(** ** The world the loader runs in *)

(** What a [throw] carries: an instance of [Error] with its [message] and
    [stack] texts, or any other value. *)
Inductive Thrown : Type :=
  | ThrownError (message stack : string)
  | ThrownValue (v : Value).

Inductive Outcome (A : Type) : Type :=
  | Returned (a : A)
  | Threw (e : Thrown).
Arguments Returned {A} a.
Arguments Threw {A} e.

(** [err.message] of what an outcome throws, when that is an [Error]. *)
Definition thrownMessage {A} (o : Outcome A) : option string :=
  match o with
  | Threw (ThrownError message _) => Some message
  | _ => None
  end.

(** The target module system handed to the compiler. *)
Inductive ModuleFormat : Type := Esm | Cjs.

(** Calls made to the collaborators, recorded in the order they happen. *)
Inductive Call : Type :=
  | CallDynamicImport (file : string)
  | CallRequire (file : string)
  | CallBuildConfig (file : string) (format : ModuleFormat).

Record World : Type :=
  mkWorld {
    files : gmap string string;          (* path to content *)
    requireCache : gmap string Value;    (* [require.cache] *)
    calls : list Call
  }.

(** Computations that read and change the world and may throw. *)
Definition M (A : Type) : Type := World → Outcome A * World.

Definition ret {A} (a : A) : M A := λ w, (Returned a, w).

Definition throw {A} (e : Thrown) : M A := λ w, (Threw e, w).

Definition bind {A B} (c : M A) (k : A → M B) : M B :=
  λ w,
    match c w with
    | (Returned a, w') => k a w'
    | (Threw e, w') => (Threw e, w')
    end.

(** [try { body } catch (err) { handler }] *)
Definition tryCatch {A} (body : M A) (handler : Thrown → M A) : M A :=
  λ w,
    match body w with
    | (Returned a, w') => (Returned a, w')
    | (Threw e, w') => handler e w'
    end.

Declare Scope js_scope.
Delimit Scope js_scope with js.
Notation "x <- c ;; k" := (bind c (λ x, k))
  (at level 100, c at next level, right associativity) : js_scope.
Notation "c ;; k" := (bind c (λ _, k))
  (at level 100, right associativity) : js_scope.
Local Open Scope js_scope.

(** The collaborators that are not part of this file: the two module
    loading primitives, the compiler of typed sources, the JSON5 parser and
    the file search. A loader reads the world and may fill the [require]
    cache; it leaves the files alone. *)
Record Externals : Type :=
  mkExternals {
    (* dynamicImport.js *)
    ext_dynamicImport : string → World → Outcome Value * gmap string Value;
    (* Node's require *)
    ext_require : string → World → Outcome Value * gmap string Value;
    (* buildConfig.js *)
    ext_buildConfig : string → ModuleFormat → World → Outcome string;
    (* JSON5.parse *)
    ext_JSON5_parse : string → Outcome Value;
    (* fast-glob with [{ cwd, absolute: true }] *)
    ext_fg : string + list string → string → gmap string string → list string
  }.

Module Fs.

Definition enoent (syscall path : string) : Thrown :=
  let message :=
    "ENOENT: no such file or directory, " +:+ syscall +:+ " '" +:+ path
      +:+ "'" in
  ThrownError message ("Error: " +:+ message).

Definition readFileSync (path : string) : M string :=
  λ w,
    match files w !! path with
    | Some content => (Returned content, w)
    | None => (Threw (enoent "open" path), w)
    end.

Definition writeFileSync (path data : string) : M unit :=
  λ w,
    (Returned (),
     {| files := <[path := data]> (files w);
        requireCache := requireCache w;
        calls := calls w |}).

Definition unlinkSync (path : string) : M unit :=
  λ w,
    match files w !! path with
    | Some _ =>
        (Returned (),
         {| files := delete path (files w);
            requireCache := requireCache w;
            calls := calls w |})
    | None => (Threw (enoent "unlink" path), w)
    end.

End Fs.

Module Require.

(** The error of a module that cannot be found. *)
Definition moduleNotFound (path : string) : Thrown :=
  let message := "Cannot find module '" +:+ path +:+ "'" in
  ThrownError message ("Error: " +:+ message).

(** [require.resolve(path)]. An absolute path, taken to be canonical,
    resolves to itself when the file exists. Any other specifier is looked
    up among the installed packages or next to this module, not in the
    working directory, where nothing of the world lies: the call throws. *)
Definition resolve (path : string) : M string :=
  λ w,
    if Path.isAbsolute path then
      match files w !! path with
      | Some _ => (Returned path, w)
      | None => (Threw (moduleNotFound path), w)
      end
    else (Threw (moduleNotFound path), w).

(** [delete require.cache[key]] *)
Definition cacheDelete (key : string) : M unit :=
  λ w,
    (Returned (),
     {| files := files w;
        requireCache := delete key (requireCache w);
        calls := calls w |}).

End Require.

(** Running a loader: the call is recorded, the cache it leaves replaces
    the old one. *)
Definition runLoader (call : Call)
    (loader : World → Outcome Value * gmap string Value) : M Value :=
  λ w,
    let '(outcome, cache) := loader w in
    (outcome,
     {| files := files w; requireCache := cache; calls := calls w ++ [call] |}).

Definition dynamicImport (ext : Externals) (file : string) : M Value :=
  runLoader (CallDynamicImport file) (ext_dynamicImport ext file).

Definition require (ext : Externals) (file : string) : M Value :=
  runLoader (CallRequire file) (ext_require ext file).

Definition buildConfig (ext : Externals) (file : string)
    (format : ModuleFormat) : M string :=
  λ w,
    (ext_buildConfig ext file format w,
     {| files := files w;
        requireCache := requireCache w;
        calls := calls w ++ [CallBuildConfig file format] |}).

Definition JSON5_parse (ext : Externals) (text : string) : M Value :=
  λ w, (ext_JSON5_parse ext text, w).

(** ** executeTypescriptModule *)

Module Execute.
Import JsString.

(** [`${filePath}.${isEsm ? 'm' : 'c'}js`] *)
Definition tempFileOf (filePath : string) (isEsm : bool) : string :=
  filePath +:+ "." +:+ (if isEsm then "m" else "c") +:+ "js".

(** The body of the [catch] block after the artifact is unlinked: an
    [Error] gets its message and stack rewritten, anything else is left as
    it is. *)
Definition hijack (tempFile filePath : string) (err : Thrown) : Thrown :=
  match err with
  | ThrownError message stack =>
      ThrownError (replace message tempFile filePath)
                  (replace stack tempFile filePath)
  | ThrownValue v => ThrownValue v
  end.

(** Lines 149-151, what precedes the [try]: the artifact is written and
    its entry dropped from the [require] cache. *)
Definition prepare (tempFile code : string) : M unit :=
  Fs.writeFileSync tempFile code ;;
  resolved <- Require.resolve tempFile ;;
  Require.cacheDelete resolved.

(** The world at the moment the artifact is loaded: the artifact is
    written and its entry is gone from the [require] cache. *)
Definition staged (tempFile code : string) (w : World) : World :=
  {| files := <[tempFile := code]> (files w);
     requireCache := delete tempFile (requireCache w);
     calls := calls w |}.

(** The loader picked by [isEsm] and the call it is recorded as. *)
Definition loaderOf (ext : Externals) (isEsm : bool)
    : string → World → Outcome Value * gmap string Value :=
  if isEsm then ext_dynamicImport ext else ext_require ext.

Definition callOf (isEsm : bool) (file : string) : Call :=
  if isEsm then CallDynamicImport file else CallRequire file.

Definition executeTypescriptModule (ext : Externals)
    (code filePath : string) (isEsm : bool) : M Value :=
  let tempFile := tempFileOf filePath isEsm in
  Fs.writeFileSync tempFile code ;;
  resolved <- Require.resolve tempFile ;;
  Require.cacheDelete resolved ;;
  userConfig <-
    tryCatch
      (raw <- (if isEsm then dynamicImport ext tempFile
               else require ext tempFile) ;;
       ret (coalesce (optDefault raw) raw))
      (λ err,
         Fs.unlinkSync tempFile ;;
         throw (hijack tempFile filePath err)) ;;
  Fs.unlinkSync tempFile ;;
  ret userConfig.

End Execute.

(** ** loadConfig *)

Module Load.
Import JsString Execute.

(** [pkg?.type === 'module'] *)
Definition isTypeModule (pkg : Value) : bool :=
  match pkg with
  | VObj m =>
      match m !! "type" with
      | Some (VStr t) => String.eqb t "module"
      | _ => false
      end
  | _ => false
  end.

Definition isJson (filePath : string) : bool := endsWith filePath ".json".
Definition isTs (filePath : string) : bool := endsWith filePath "ts".
Definition isJs (filePath : string) : bool := endsWith filePath "js".

Definition isESM (pkg : Value) (filePath : string) : bool :=
  some (λ type, endsWith filePath type) ["mjs"; "mts"]
  || (isTypeModule pkg
      && some (λ type, endsWith filePath type) ["js"; "ts"]).

(** The clock reads and the debug line of the log are left out. *)
(** The classification as the specification words it, with dotted
    suffixes: [.mjs] or [.mts], or a manifest of type [module] and [.js] or
    [.ts]. *)
Definition claimedESM (pkg : Value) (filePath : string) : bool :=
  endsWith filePath ".mjs" || endsWith filePath ".mts"
  || (isTypeModule pkg
      && (endsWith filePath ".js" || endsWith filePath ".ts")).

Definition loadConfig (ext : Externals) (filePath : string) (pkg : Value)
    : M Value :=
  if isJson filePath then
    text <- Fs.readFileSync filePath ;;
    JSON5_parse ext text
  else
    let userConfig := VUndefined in
    userConfig <-
      (if isESM pkg filePath && isJs filePath
       then imported <- dynamicImport ext filePath ;;
            ret (optDefault imported)
       else ret userConfig) ;;
    userConfig <-
      (if negb (isESM pkg filePath) && isJs filePath
       then require ext filePath
       else ret userConfig) ;;
    userConfig <-
      (if isTs filePath
       then code <- buildConfig ext filePath
                      (if isESM pkg filePath then Esm else Cjs) ;;
            executeTypescriptModule ext code filePath (isESM pkg filePath)
       else ret userConfig) ;;
    ret userConfig.

End Load.

(** ** resolveConfigFile *)

Module Resolve.

(** [commandArgs], of which [config] and [mode] are read here. *)
Record CommandArgs : Type :=
  mkCommandArgs {
    config : option string;
    mode : string
  }.

(** The result is a path, or [undefined] ([None]) when the search has no
    match. [cwd] is the working directory of the process, which
    [path.resolve] falls back on when [rootDir] is relative. *)
Definition fg (ext : Externals) (configFile : string + list string)
    (rootDir : string) : M (list string) :=
  λ w, (Returned (ext_fg ext configFile rootDir (files w)), w).

Definition resolveConfigFile (ext : Externals) (cwd : string)
    (configFile : string + list string) (commandArgs : CommandArgs)
    (rootDir : string) : M (option string) :=
  let search :=
    found <- fg ext configFile rootDir ;;
    ret (head found) in
  match config commandArgs with
  | Some config =>
      if Merge.truthyString config then
        ret (Some (if Path.isAbsolute config then config
                   else Path.resolve cwd [rootDir; config]))
      else search
  | None => search
  end.

End Resolve.

(** ** getUserConfig *)

Module User.
Import Resolve.

(** The three methods of the logger that are called. *)
Inductive LogLevel : Type := LogWarn | LogError | LogDebug.

(** How a call ends: the promise resolves, it is rejected with what was
    thrown, or [process.exit] ends the process. [Unmodelled mode loaded]
    stands for whatever [mergeModeConfig(mode, loaded)] does with a loaded
    value that is not a [UserConfig], on which the typed
    [Merge.mergeModeConfig] has nothing to say. *)
Inductive Ending : Type :=
  | Resolved (userConfig : UserConfig)
  | Rejected (e : Thrown)
  | Exited (code : Z)
  | Unmodelled (mode : string) (loaded : Value).

Definition typeError (message : string) : Thrown :=
  ThrownError message ("TypeError: " +:+ message).

(** The [TypeError] of a property read on [undefined] or [null]. *)
Definition cannotRead (v : Value) (property : string) : Thrown :=
  typeError
    ("Cannot read properties of "
       +:+ match v with VNull => "null" | _ => "undefined" end
       +:+ " (reading '" +:+ property +:+ "')").

(** The abstract operation [ToString] on a value, [None] when it throws a
    [TypeError]. [numberToString] is how the runtime prints a number. An
    array prints its elements separated by commas, [undefined] and [null]
    among them as nothing. An object prints through
    [Object.prototype.toString] unless it has a [toString] property of its
    own, which here is never a function, so that the conversion fails. *)
Fixpoint toStringValue (numberToString : Z → string) (v : Value)
    : option string :=
  match v with
  | VUndefined => Some "undefined"
  | VNull => Some "null"
  | VBool true => Some "true"
  | VBool false => Some "false"
  | VNum n => Some (numberToString n)
  | VStr s => Some s
  | VArr l =>
      (fix join (l : list Value) : option string :=
         match l with
         | [] => Some EmptyString
         | [x] =>
             if nullish x then Some EmptyString
             else toStringValue numberToString x
         | x :: (_ :: _) as more =>
             match
               (if nullish x then Some EmptyString
                else toStringValue numberToString x),
               join more
             with
             | Some first, Some rest => Some (first +:+ "," +:+ rest)
             | _, _ => None
             end
         end) l
  | VObj m =>
      if bool_decide (is_Some (m !! "toString")) then None
      else Some "[object Object]"
  end.

(** The method call [err.toString()]. *)
Definition errToString (numberToString : Z → string) (err : Value)
    : Outcome string :=
  match err with
  | VUndefined | VNull => Threw (cannotRead err "toString")
  | VObj m =>
      if bool_decide (is_Some (m !! "toString"))
      then Threw (typeError "err.toString is not a function")
      else Returned "[object Object]"
  | _ =>
      match toStringValue numberToString err with
      | Some text => Returned text
      | None => Threw (typeError "Cannot convert object to primitive value")
      end
  end.

Definition newline : string := String (ascii_of_nat 10) EmptyString.

Definition noConfigMessage : string :=
  "It's most likely you don't have a config file in root directory!"
    +:+ newline
    +:+ "Just ignore this message if you know what you do; Otherwise, check it by yourself.".

(** [fs.existsSync(path)] *)
Definition existsSync (path : string) (w : World) : bool :=
  bool_decide (is_Some (files w !! path)).

(** The configuration a call starts from: [{ plugins: [] }]. *)
Definition emptyConfig : UserConfig :=
  {| plugins := []; modeConfig := None; fields := ∅ |}.

(** The line [loadConfig] hands to the logger once a typed source is
    loaded; [elapsed] is the difference of the two clock reads. *)
Definition loadConfigLog (numberToString : Z → string) (elapsed : Z)
    (filePath : string) : list (LogLevel * string) :=
  if negb (Load.isJson filePath) && Load.isTs filePath
  then [(LogDebug,
         "bundled module file loaded in " +:+ numberToString elapsed +:+ "m")]
  else [].

(** *** Loaded values that are a [UserConfig] *)

(** A plugin entry: a string, or an array of a string and options. *)
Definition asPluginEntry (v : Value) : option PluginEntry :=
  match v with
  | VStr name => Some (PluginName name)
  | VArr [VStr name; options] => Some (PluginPair name options)
  | _ => None
  end.

Definition asPluginList (v : Value) : option (list PluginEntry) :=
  match v with
  | VArr l => mapM asPluginEntry l
  | _ => None
  end.

Definition allSome {A} (m : gmap string (option A))
    : option (gmap string A) :=
  if bool_decide (map_Forall (λ _ o, is_Some o) m)
  then Some (omap id m) else None.

(** A partial configuration: an object whose [plugins], if it has the
    property, is an array of plugin entries and whose [modeConfig], if it
    has the property, is an object of partial configurations. *)
Fixpoint asPartialConfig (v : Value) : option PartialConfig :=
  match v with
  | VObj m =>
      match
        match m !! "plugins" with
        | None => Some None
        | Some listed => Some <$> asPluginList listed
        end,
        match (asModeConfig <$> m) !! "modeConfig" with
        | None => Some None
        | Some modes => Some <$> modes
        end
      with
      | Some listed, Some modes =>
          Some {| pc_plugins := listed;
                  pc_modeConfig := modes;
                  pc_fields := delete "plugins" (delete "modeConfig" m) |}
      | _, _ => None
      end
  | _ => None
  end
with asModeConfig (v : Value) : option (gmap string PartialConfig) :=
  match v with
  | VObj modes => allSome (asPartialConfig <$> modes)
  | _ => None
  end.

(** The record a loaded value is taken for by the cast
    [userConfig as UserConfig<K>], when it is one: a partial configuration
    that has [plugins]. *)
Definition asUserConfig (v : Value) : option UserConfig :=
  match asPartialConfig v with
  | Some {| pc_plugins := Some listed;
            pc_modeConfig := modes;
            pc_fields := rest |} =>
      Some {| plugins := listed; modeConfig := modes; fields := rest |}
  | _ => None
  end.

(** The result is the ending, the world and the lines handed to the logger,
    in order, the line of [loadConfig] among them. A loaded [undefined] or
    [null] has no [modeConfig] to read and the read throws. *)
Definition getUserConfig (ext : Externals)
    (numberToString : Z → string) (elapsed : Z)
    (rootDir : string) (commandArgs : CommandArgs) (pkg : Value)
    (configFilePath : string) (w : World)
    : Ending * World * list (LogLevel * string) :=
  let userConfig := emptyConfig in
  if Merge.truthyString configFilePath && existsSync configFilePath w then
    match Load.loadConfig ext configFilePath pkg w with
    | (Returned loaded, w') =>
        let logged := loadConfigLog numberToString elapsed configFilePath in
        if nullish loaded
        then (Rejected (cannotRead loaded "modeConfig"), w', logged)
        else
          match asUserConfig loaded with
          | Some userConfig =>
              (Resolved
                 (Merge.mergeModeConfig (mode commandArgs) userConfig),
               w', logged)
          | None => (Unmodelled (mode commandArgs) loaded, w', logged)
          end
    | (Threw err, w') =>
        let warned :=
          [(LogWarn, "Fail to load config file " +:+ configFilePath)] in
        match err with
        | ThrownError _ stack =>
            (Exited 1, w', warned ++ [(LogError, stack)])
        | ThrownValue v =>
            match errToString numberToString v with
            | Returned text => (Exited 1, w', warned ++ [(LogError, text)])
            | Threw raised => (Rejected raised, w', warned)
            end
        end
    end
  else if Merge.truthyString configFilePath then
    (Exited 1, w,
     [(LogError, "config file(" +:+ configFilePath +:+ ") is not exist")])
  else
    (Resolved (Merge.mergeModeConfig (mode commandArgs) userConfig), w,
     [(LogDebug, noConfigMessage)]).

End User.

(** ** Sample collaborators and data for the examples *)

(** A reader for the part of the JSON5 grammar the examples use: objects
    with unquoted or quoted keys, arrays, integers, quoted strings without
    backslash escapes, [true], [false], [null], both kinds of comments and trailing
    commas. It stands in for [JSON5.parse] in the examples. *)
Module Json5Lite.

Definition isSpace (c : ascii) : bool :=
  let n := nat_of_ascii c in
  (n =? 32)%nat || (n =? 9)%nat || (n =? 10)%nat || (n =? 13)%nat.

Definition isDigit (c : ascii) : bool :=
  let n := nat_of_ascii c in (48 <=? n)%nat && (n <=? 57)%nat.

Definition isIdentChar (c : ascii) : bool :=
  let n := nat_of_ascii c in
  isDigit c || ((65 <=? n)%nat && (n <=? 90)%nat)
  || ((97 <=? n)%nat && (n <=? 122)%nat)
  || Ascii.eqb c "_" || Ascii.eqb c "$".

(** After an opening [/*]: what follows the closing [*/]. *)
Fixpoint skipBlockComment (s : string) : option string :=
  match s with
  | EmptyString => None
  | String a r =>
      match r with
      | String b r' =>
          if Ascii.eqb a "*" && Ascii.eqb b "/" then Some r'
          else skipBlockComment r
      | EmptyString => None
      end
  end.

Fixpoint skipLine (s : string) : string :=
  match s with
  | EmptyString => EmptyString
  | String c r => if (nat_of_ascii c =? 10)%nat then r else skipLine r
  end.

Fixpoint skipSpace (fuel : nat) (s : string) : string :=
  match fuel, s with
  | S fuel', String c r =>
      if isSpace c then skipSpace fuel' r
      else if Ascii.eqb c "/" then
        match r with
        | String d r' =>
            if Ascii.eqb d "*" then
              match skipBlockComment r' with
              | Some r'' => skipSpace fuel' r''
              | None => s
              end
            else if Ascii.eqb d "/" then skipSpace fuel' (skipLine r')
            else s
        | EmptyString => s
        end
      else s
  | _, _ => s
  end.

Fixpoint takeWhile (f : ascii → bool) (s : string) : string * string :=
  match s with
  | String c r =>
      if f c then let '(word, rest) := takeWhile f r in (String c word, rest)
      else (EmptyString, s)
  | EmptyString => (EmptyString, EmptyString)
  end.

(** After an opening quote [q]: the text up to the closing quote. *)
Fixpoint readQuoted (q : ascii) (s : string) : option (string * string) :=
  match s with
  | EmptyString => None
  | String c r =>
      if Ascii.eqb c q then Some (EmptyString, r)
      else if (nat_of_ascii c =? 92)%nat then None
      else match readQuoted q r with
           | Some (text, rest) => Some (String c text, rest)
           | None => None
           end
  end.

Fixpoint digitsValue (acc : Z) (s : string) : Z :=
  match s with
  | String c r => digitsValue (10 * acc + Z.of_nat (nat_of_ascii c - 48)) r
  | EmptyString => acc
  end.

Definition isQuote (c : ascii) : bool :=
  (nat_of_ascii c =? 34)%nat || Ascii.eqb c "'".

Definition readKey (s : string) : option (string * string) :=
  match s with
  | String c r =>
      if isQuote c then readQuoted c r
      else match takeWhile isIdentChar s with
           | (EmptyString, _) => None
           | (word, rest) => Some (word, rest)
           end
  | EmptyString => None
  end.

Definition readScalar (s : string) : option (Value * string) :=
  match s with
  | String c r =>
      if isQuote c then
        match readQuoted c r with
        | Some (text, rest) => Some (VStr text, rest)
        | None => None
        end
      else if isDigit c then
        let '(word, rest) := takeWhile isDigit s in
        Some (VNum (digitsValue 0 word), rest)
      else if Ascii.eqb c "-" then
        match takeWhile isDigit r with
        | (EmptyString, _) => None
        | (word, rest) => Some (VNum (- digitsValue 0 word), rest)
        end
      else
        let '(word, rest) := takeWhile isIdentChar s in
        if String.eqb word "true" then Some (VBool true, rest)
        else if String.eqb word "false" then Some (VBool false, rest)
        else if String.eqb word "null" then Some (VNull, rest)
        else None
  | EmptyString => None
  end.

Fixpoint readValue (fuel : nat) (s : string) : option (Value * string) :=
  match fuel with
  | O => None
  | S fuel' =>
      match skipSpace fuel s with
      | String c r =>
          if Ascii.eqb c "{" then readMembers fuel' r ∅
          else if Ascii.eqb c "[" then readElements fuel' r []
          else readScalar (String c r)
      | EmptyString => None
      end
  end
with readMembers (fuel : nat) (s : string) (acc : gmap string Value)
    : option (Value * string) :=
  match fuel with
  | O => None
  | S fuel' =>
      match skipSpace fuel s with
      | String c r =>
          if Ascii.eqb c "}" then Some (VObj acc, r)
          else
            match readKey (String c r) with
            | Some (key, afterKey) =>
                match skipSpace fuel afterKey with
                | String colon afterColon =>
                    if Ascii.eqb colon ":" then
                      match readValue fuel' afterColon with
                      | Some (v, afterValue) =>
                          match skipSpace fuel afterValue with
                          | String d more =>
                              if Ascii.eqb d "," then
                                readMembers fuel' more (<[key := v]> acc)
                              else if Ascii.eqb d "}" then
                                Some (VObj (<[key := v]> acc), more)
                              else None
                          | EmptyString => None
                          end
                      | None => None
                      end
                    else None
                | EmptyString => None
                end
            | None => None
            end
      | EmptyString => None
      end
  end
with readElements (fuel : nat) (s : string) (acc : list Value)
    : option (Value * string) :=
  match fuel with
  | O => None
  | S fuel' =>
      match skipSpace fuel s with
      | String c r =>
          if Ascii.eqb c "]" then Some (VArr acc, r)
          else
            match readValue fuel' (String c r) with
            | Some (v, afterValue) =>
                match skipSpace fuel afterValue with
                | String d more =>
                    if Ascii.eqb d "," then
                      readElements fuel' more (acc ++ [v])
                    else if Ascii.eqb d "]" then Some (VArr (acc ++ [v]), more)
                    else None
                | EmptyString => None
                end
            | None => None
            end
      | EmptyString => None
      end
  end.

Definition syntaxError : Thrown :=
  ThrownError "JSON5: invalid character" "SyntaxError: JSON5: invalid character".

Definition parse (text : string) : Outcome Value :=
  let fuel := (2 * String.length text + 2)%nat in
  match readValue fuel text with
  | Some (v, rest) =>
      match skipSpace fuel rest with
      | EmptyString => Returned v
      | String _ _ => Threw syntaxError
      end
  | None => Threw syntaxError
  end.

End Json5Lite.

Module Samples.
Import Merge.

Definition optX (n : Z) : Value := VObj {[ "x" := VNum n ]}.

Definition basePlugins : list PluginEntry :=
  [PluginName "A"; PluginPair "B" (optX 1)].

Definition devPlugins : list PluginEntry :=
  [PluginPair "B" (optX 2); PluginName "C"].

Definition devOverride : PartialConfig :=
  {| pc_plugins := Some devPlugins;
     pc_modeConfig := None;
     pc_fields := {[ "outputDir" := VStr "dev-dist" ]} |}.

Definition exampleConfig : UserConfig :=
  {| plugins := basePlugins;
     modeConfig := Some {[ "dev" := devOverride ]};
     fields := {[ "outputDir" := VStr "dist"; "hash" := VBool true ]} |}.

(** A configuration whose [modeConfig] has an entry under the empty name. *)
Definition unnamedOverride : PartialConfig :=
  {| pc_plugins := Some [PluginName "B"];
     pc_modeConfig := None;
     pc_fields := ∅ |}.

Definition unnamedModeConfig : UserConfig :=
  {| plugins := [PluginName "A"];
     modeConfig := Some {[ "" := unnamedOverride ]};
     fields := ∅ |}.


(** A mode that names the new plugin [C] twice. *)
Definition twiceInMode : UserConfig :=
  {| plugins := [PluginName "A"];
     modeConfig :=
       Some {[ "dev" :=
                 {| pc_plugins := Some [PluginName "C"; PluginPair "C" (optX 1)];
                    pc_modeConfig := None;
                    pc_fields := ∅ |} ]};
     fields := ∅ |}.

Definition modulePkg : Value := VObj {[ "type" := VStr "module" ]}.
Definition plainPkg : Value := VObj {[ "name" := VStr "app" ]}.

(** A search that knows no wildcards: the listed names that exist under
    [rootDir]. *)
Definition sampleFg (configFile : string + list string) (rootDir : string)
    (fs : gmap string string) : list string :=
  let names := match configFile with inl name => [name] | inr l => l end in
  filter (λ p, is_Some (fs !! p)) (map (λ n, rootDir +:+ "/" +:+ n) names).

(** Loaders whose outcome is [outcome file], and which cache nothing. *)
Definition sampleExt (outcome : string → Outcome Value) : Externals :=
  {| ext_dynamicImport := λ file w, (outcome file, requireCache w);
     ext_require := λ file w, (outcome file, requireCache w);
     ext_buildConfig := λ _ _ _, Returned "exports.default = {};";
     ext_JSON5_parse := Json5Lite.parse;
     ext_fg := sampleFg |}.

(** A module that fails to load with an [Error] naming the file it was
    loaded from, in the message and again in the frame of the stack. *)
Definition failsNamingFile (file : string) : Outcome Value :=
  Threw (ThrownError
    ("Unexpected token in " +:+ file)
    ("SyntaxError: Unexpected token in " +:+ file +:+ " at " +:+ file
       +:+ ":1:7")).

(** A module that throws a string. *)
Definition throwsString (file : string) : Outcome Value :=
  Threw (ThrownValue (VStr ("cannot run " +:+ file))).

(** A module with a default export. *)
Definition exportsDefault (file : string) : Outcome Value :=
  Returned (VObj {[ "default" := VObj {[ "a" := VNum 1 ]} ]}).

Definition sampleWorld : World :=
  {| files :=
       {[ "/proj/build.config.ts" := "export default { a: 1 };";
          "/proj/build.json" := "{a:1, /*c*/ b:2,}" ]};
     requireCache := ∅;
     calls := [] |}.

End Samples.

(** Further sample data. *)
Module MoreSamples.

(** A compiler that rejects every source. *)
Definition compileError : Thrown :=
  ThrownError "Build failed with 1 error" "Error: Build failed with 1 error".

Definition brokenCompilerExt : Externals :=
  {| ext_dynamicImport := λ _ w, (Returned VUndefined, requireCache w);
     ext_require := λ _ w, (Returned VUndefined, requireCache w);
     ext_buildConfig := λ _ _ _, Threw compileError;
     ext_JSON5_parse := Json5Lite.parse;
     ext_fg := Samples.sampleFg |}.

(** A module without a default export. *)
Definition exportsNamed (file : string) : Outcome Value :=
  Returned (VObj {[ "plugins" := VArr [VStr "A"] ]}).

(** A module that fails with an [Error] that does not name any file. *)
Definition failsPlainly (file : string) : Outcome Value :=
  Threw (ThrownError "x is not defined" "ReferenceError: x is not defined").

(** A module that fails with an [Error] naming its file in the message. *)
Definition failsNamingOnce (file : string) : Outcome Value :=
  Threw (ThrownError ("Cannot parse " +:+ file) "SyntaxError").

(** A module that throws [undefined]. *)
Definition throwsUndefined (file : string) : Outcome Value :=
  Threw (ThrownValue VUndefined).

(** A module whose export is a configuration with a [dev] mode. *)
Definition configValue : Value :=
  VObj {[ "plugins" := VArr [VStr "A"];
          "modeConfig" :=
            VObj {[ "dev" := VObj {[ "plugins" := VArr [VStr "C"] ]} ]} ]}.

Definition exportsConfig (file : string) : Outcome Value :=
  Returned configValue.


Definition devArgs : Resolve.CommandArgs :=
  {| Resolve.config := None; Resolve.mode := "dev" |}.

(** A world with a plain script and a file of an unknown format. *)
Definition scriptWorld : World :=
  {| files :=
       {[ "/proj/build.config.js" := "module.exports = { plugins: ['A'] };";
          "/proj/build.config.ts" := "export default { plugins: ['A'] };";
          "/proj/build.yaml" := "plugins: [A]" ]};
     requireCache := ∅;
     calls := [] |}.

End MoreSamples.

(** * Properties *)

(** ** mergeModeConfig *)

Section MergeFacts.
Import Merge.

Lemma indexOfFrom_firstIndexOf from keys key :
  indexOfFrom from keys key
  = match firstIndexOf keys key with
    | Some n => from + Z.of_nat n
    | None => -1
    end.
Proof.
  unfold firstIndexOf. revert from.
  induction keys as [|k keys IH]; intros from; simpl; [done|].
  destruct (String.eqb_spec k key) as [->|Hne].
  - rewrite decide_True by done. simpl. lia.
  - rewrite decide_False by done. rewrite IH.
    destruct (list_find _ keys) as [[n x]|]; simpl; [lia|done].
Qed.

Lemma firstIndexOf_Some keys key n :
  firstIndexOf keys key = Some n ↔
  keys !! n = Some key ∧ ∀ j, (j < n)%nat → keys !! j ≠ Some key.
Proof.
  unfold firstIndexOf. split.
  - intros H. apply fmap_Some in H as [[i x] [H ->]].
    apply list_find_Some in H as (Hl & -> & Hmin). simpl. split; [done|].
    intros j Hj Hk. by apply (Hmin j key).
  - intros [Hl Hmin]. apply fmap_Some. exists (n, key). split; [|done].
    apply list_find_Some. split_and!; [done..|].
    intros j y Hy Hj ->. by apply (Hmin j).
Qed.

Lemma firstIndexOf_None keys key :
  firstIndexOf keys key = None ↔ key ∉ keys.
Proof.
  unfold firstIndexOf. rewrite fmap_None, list_find_None, Forall_forall.
  split.
  - intros H Hin. by apply (H key).
  - intros H x Hx ->. done.
Qed.

Lemma forEachBody_found keys userPlugins e n :
  firstIndexOf keys (pluginKey e) = Some n →
  forEachBody keys userPlugins e = <[n := e]> userPlugins.
Proof.
  intros H. unfold forEachBody, indexOf. rewrite indexOfFrom_firstIndexOf, H.
  destruct (Z.ltb_spec (-1) (0 + Z.of_nat n)); [|lia].
  f_equal. lia.
Qed.

Lemma forEachBody_fresh keys userPlugins e :
  firstIndexOf keys (pluginKey e) = None →
  forEachBody keys userPlugins e = userPlugins ++ [e].
Proof.
  intros H. unfold forEachBody, indexOf. by rewrite indexOfFrom_firstIndexOf, H.
Qed.

Lemma foldl_forEachBody keys plugins : ∀ R T,
  length R = length keys →
  foldl (forEachBody keys) (R ++ T) plugins
  = imap (entryAt keys plugins) R
    ++ T ++ filter (λ e, pluginKey e ∉ keys) plugins.
Proof.
  induction plugins as [|e plugins IH]; intros R T Hlen; simpl.
  - rewrite app_nil_r. f_equal. symmetry.
    apply list_eq. intros j. rewrite list_lookup_imap.
    unfold entryAt. simpl. by destruct (R !! j).
  - destruct (firstIndexOf keys (pluginKey e)) as [n|] eqn:Hfi.
    + rewrite (forEachBody_found _ _ _ _ Hfi).
      assert (n < length R)%nat as Hn.
      { apply firstIndexOf_Some in Hfi as [Hl _]. rewrite Hlen.
        by apply lookup_lt_Some in Hl. }
      rewrite insert_app_l by done.
      rewrite IH by (by rewrite length_insert).
      rewrite (filter_cons_False _ e).
      2:{ intros Hnot. apply firstIndexOf_None in Hnot. congruence. }
      f_equal. apply list_eq. intros j. rewrite !list_lookup_imap.
      unfold entryAt.
      destruct (decide (n = j)) as [->|Hne].
      * rewrite list_lookup_insert_eq by done.
        rewrite (filter_cons_True _ e) by done.
        destruct (lookup_lt_is_Some_2 R j Hn) as [b Hb]. rewrite Hb. simpl.
        rewrite last_cons. by destruct (last _).
      * rewrite list_lookup_insert_ne by done.
        rewrite (filter_cons_False _ e); [done|]. congruence.
    + rewrite (forEachBody_fresh _ _ _ Hfi).
      rewrite <- (assoc_L (++)). rewrite IH by done.
      rewrite (filter_cons_True _ e) by (by apply firstIndexOf_None).
      rewrite <- (assoc_L (++) T). simpl.
      f_equal. apply list_eq. intros j. rewrite !list_lookup_imap.
      unfold entryAt. rewrite (filter_cons_False _ e); [done|]. congruence.
Qed.

Lemma mergePlugins_reconciled base plugins :
  mergePlugins base (Some plugins) = reconciled base plugins.
Proof.
  unfold mergePlugins, reconciled.
  rewrite <- (app_nil_r base) at 2.
  rewrite foldl_forEachBody by (by rewrite length_map). done.
Qed.

Lemma pluginKey_entryAt base plugins j b :
  base !! j = Some b →
  pluginKey (entryAt (map pluginKey base) plugins j b) = pluginKey b.
Proof.
  intros Hb. unfold entryAt.
  destruct (last _) as [e|] eqn:Hlast; simpl; [|done].
  apply last_Some_elem_of, list_elem_of_filter in Hlast as [Hfi _].
  apply firstIndexOf_Some in Hfi as [Hk _].
  change (map pluginKey) with (fmap (M:=list) pluginKey) in Hk.
  rewrite list_lookup_fmap, Hb in Hk. simpl in Hk. congruence.
Qed.

Lemma keys_reconciled base plugins :
  map pluginKey (reconciled base plugins)
  = map pluginKey base
    ++ map pluginKey (filter (λ e, pluginKey e ∉ map pluginKey base) plugins).
Proof.
  unfold reconciled. rewrite map_app. f_equal.
  apply list_eq. intros j.
  change (map pluginKey) with (fmap (M:=list) pluginKey).
  rewrite !list_lookup_fmap, list_lookup_imap.
  destruct (base !! j) as [b|] eqn:Hb; simpl; [|done].
  f_equal. by apply pluginKey_entryAt.
Qed.


(** Merging the example configuration of the specification. *)
Example merge_dev_plugins :
  plugins (mergeModeConfig "dev" Samples.exampleConfig)
  = [PluginName "A"; PluginPair "B" (Samples.optX 2); PluginName "C"].
Proof. reflexivity. Qed.

Example merge_dev_outputDir :
  fields (mergeModeConfig "dev" Samples.exampleConfig) !! "outputDir"
  = Some (VStr "dev-dist").
Proof. reflexivity. Qed.

Example merge_dev_hash :
  fields (mergeModeConfig "dev" Samples.exampleConfig) !! "hash"
  = Some (VBool true).
Proof. reflexivity. Qed.

(** A new plugin listed twice by the mode is appended twice: the keys are
    those of the base list and are not extended by the loop. *)
Example merge_twice_in_mode :
  plugins (mergeModeConfig "dev" Samples.twiceInMode)
  = [PluginName "A"; PluginName "C"; PluginPair "C" (Samples.optX 1)].
Proof. reflexivity. Qed.

Lemma foldl_ext {A B} (f g : A → B → A) (l : list B) :
  (∀ a x, f a x = g a x) → ∀ a, foldl f a l = foldl g a l.
Proof.
  intros Hfg. induction l as [|x l IH]; intros a; simpl; [done|].
  by rewrite Hfg, IH.
Qed.

Lemma truthyString_true s : truthyString s = true ↔ s ≠ "".
Proof.
  unfold truthyString. destruct (String.eqb_spec s ""); simpl; split; congruence.
Qed.

Lemma mergeModeConfig_applies mode userConfig mc override :
  mode ≠ "" →
  modeConfig userConfig = Some mc →
  mc !! mode = Some override →
  mergeModeConfig mode userConfig
  = spread userConfig override
      (mergePlugins (plugins userConfig) (pc_plugins override)).
Proof.
  intros Hmode Hmc Hov. unfold mergeModeConfig. rewrite Hmc.
  apply truthyString_true in Hmode. by rewrite Hmode, Hov.
Qed.

(** C1 (amended): for every non-empty mode name that has an entry in
    [modeConfig], when that entry has a plugin list the merged plugin list
    is the base list folded over the mode's entries in listed order, where
    an entry whose identifier occurs in the base list overwrites the
    position of its first occurrence there and any other entry is appended.
    Position by position this is [reconciled]: the base entries, each
    replaced by the last mode entry of its identifier, followed by the new
    entries in listed order. Every field named by the mode's entry other
    than [plugins] overwrites the field of the same name as a whole; the
    remaining fields keep their value. *)
Theorem C1_merge_reconciles_plugins mode userConfig mc override :
  mode ≠ "" →
  modeConfig userConfig = Some mc →
  mc !! mode = Some override →
  let base := plugins userConfig in
  let result := mergeModeConfig mode userConfig in
  (∀ modePlugins,
     pc_plugins override = Some modePlugins →
     plugins result
     = foldl (λ working e,
                match firstIndexOf (map pluginKey base) (pluginKey e) with
                | Some i => <[i := e]> working
                | None => working ++ [e]
                end) base modePlugins
     ∧ plugins result = reconciled base modePlugins)
  ∧ modeConfig result
    = match pc_modeConfig override with
      | Some own => Some own
      | None => modeConfig userConfig
      end
  ∧ ∀ k, fields result !! k
         = match pc_fields override !! k with
           | Some v => Some v
           | None => fields userConfig !! k
           end.
Proof.
  intros Hmode Hmc Hov base result. subst result.
  rewrite (mergeModeConfig_applies _ _ _ _ Hmode Hmc Hov). simpl.
  split_and!; [|done|].
  - intros modePlugins ->. split.
    + unfold mergePlugins. apply foldl_ext. intros working e.
      destruct (firstIndexOf _ _) eqn:Hfi.
      * by apply forEachBody_found.
      * by apply forEachBody_fresh.
    + apply mergePlugins_reconciled.
  - intros k. rewrite lookup_union.
    destruct (pc_fields override !! k), (fields userConfig !! k); done.
Qed.

(** The example of the specification: base [A, (B, {x:1})] and a mode with
    [(B, {x:2}), C] give [A, (B, {x:2}), C]. *)
Lemma C1_witness_spec_example :
  plugins (mergeModeConfig "dev" Samples.exampleConfig)
  = [PluginName "A"; PluginPair "B" (Samples.optX 2); PluginName "C"].
Proof.
  pose proof (C1_merge_reconciles_plugins "dev" Samples.exampleConfig
                {[ "dev" := Samples.devOverride ]} Samples.devOverride
                ltac:(discriminate) eq_refl eq_refl) as [H _].
  destruct (H Samples.devPlugins eq_refl) as [_ ->].
  reflexivity.
Defined.

(** C1 as stated fails for the empty mode name: it can be a key of
    [modeConfig], yet the merge is skipped. *)
Lemma C1_counterexample_empty_mode_name :
  modeConfig Samples.unnamedModeConfig = Some {[ "" := Samples.unnamedOverride ]}
  ∧ ({[ "" := Samples.unnamedOverride ]} : gmap string PartialConfig) !! ""
    = Some Samples.unnamedOverride
  ∧ pc_plugins Samples.unnamedOverride = Some [PluginName "B"]
  ∧ reconciled (plugins Samples.unnamedModeConfig) [PluginName "B"]
    = [PluginName "A"; PluginName "B"]
  ∧ plugins (mergeModeConfig "" Samples.unnamedModeConfig) = [PluginName "A"]
  ∧ plugins (mergeModeConfig "" Samples.unnamedModeConfig)
    ≠ reconciled (plugins Samples.unnamedModeConfig) [PluginName "B"].
Proof. split_and!; try reflexivity. discriminate. Qed.




(** C5: with an empty mode, without [modeConfig], or without an entry for
    the mode in [modeConfig], the configuration is returned as it is. *)
Theorem C5_merge_identity_without_mode mode userConfig :
  mode = ""
  ∨ modeConfig userConfig = None
  ∨ (∃ mc, modeConfig userConfig = Some mc ∧ mc !! mode = None) →
  mergeModeConfig mode userConfig = userConfig.
Proof.
  unfold mergeModeConfig. intros [->|[->|(mc & -> & Hnone)]].
  - by destruct (modeConfig userConfig).
  - done.
  - rewrite Hnone. by destruct (truthyString mode).
Qed.

Lemma C5_witness_unknown_mode :
  mergeModeConfig "prod" Samples.exampleConfig = Samples.exampleConfig.
Proof.
  apply C5_merge_identity_without_mode. right. right.
  exists {[ "dev" := Samples.devOverride ]}. split; reflexivity.
Defined.




End MergeFacts.

(** ** String primitives *)

Section StringFacts.
Import JsString.

Lemma append_cons c s t : String c s +:+ t = String c (s +:+ t).
Proof. reflexivity. Qed.

Lemma endsWith_unfold s suffix :
  endsWith s suffix
  = String.eqb s suffix
    || match s with
       | EmptyString => false
       | String _ s' => endsWith s' suffix
       end.
Proof. by destruct s. Qed.

Lemma endsWith_spec s suffix :
  endsWith s suffix = true ↔ ∃ stem, s = stem +:+ suffix.
Proof.
  split.
  - induction s as [|c s IH]; rewrite endsWith_unfold.
    + rewrite orb_false_r. intros H%String.eqb_eq. by exists "".
    + intros [H%String.eqb_eq|H]%orb_true_iff.
      * by exists "".
      * destruct (IH H) as [stem ->]. by exists (String c stem).
  - intros [stem ->]. induction stem as [|c stem IH]; rewrite endsWith_unfold.
    + by rewrite String.eqb_refl.
    + simpl. by rewrite IH, orb_true_r.
Qed.

Lemma endsWith_longer s a suffix :
  endsWith s (a +:+ suffix) = true → endsWith s suffix = true.
Proof.
  rewrite !endsWith_spec. intros [stem ->]. exists (stem +:+ a).
  induction stem as [|c stem IH]; [done|].
  rewrite !append_cons. by f_equal.
Qed.

Lemma replace_absent s pat template :
  includes s pat = false → replace s pat template = s.
Proof.
  unfold includes, replace. by destruct (splitFirst s pat) as [[??]|].
Qed.

End StringFacts.

(** ** executeTypescriptModule *)

Section ExecuteFacts.
Import JsString Execute.

Variable ext : Externals.

Lemma isAbsolute_tempFileOf filePath isEsm :
  Path.isAbsolute (tempFileOf filePath isEsm) = Path.isAbsolute filePath.
Proof. by destruct filePath. Qed.

(** What precedes the [try] returns exactly for an absolute path, and then
    leaves the [staged] world; for any other path [require.resolve] throws
    with the artifact written. *)
Lemma prepare_absolute code filePath isEsm w :
  Path.isAbsolute filePath = true →
  prepare (tempFileOf filePath isEsm) code w
  = (Returned (), staged (tempFileOf filePath isEsm) code w).
Proof.
  intros Habs. unfold prepare, bind, Fs.writeFileSync, Require.resolve,
    Require.cacheDelete, staged. simpl.
  by rewrite isAbsolute_tempFileOf, Habs, lookup_insert_eq.
Qed.

Lemma prepare_relative code filePath isEsm w :
  Path.isAbsolute filePath = false →
  prepare (tempFileOf filePath isEsm) code w
  = (Threw (Require.moduleNotFound (tempFileOf filePath isEsm)),
     {| files := <[tempFileOf filePath isEsm := code]> (files w);
        requireCache := requireCache w;
        calls := calls w |}).
Proof.
  intros Hrel. unfold prepare, bind, Fs.writeFileSync, Require.resolve,
    Require.cacheDelete. simpl.
  by rewrite isAbsolute_tempFileOf, Hrel.
Qed.

Lemma prepare_returns code filePath isEsm w ready :
  prepare (tempFileOf filePath isEsm) code w = (Returned (), ready) →
  Path.isAbsolute filePath = true
  ∧ ready = staged (tempFileOf filePath isEsm) code w.
Proof.
  destruct (Path.isAbsolute filePath) eqn:Habs.
  - rewrite (prepare_absolute _ _ _ _ Habs). by intros [= <-].
  - by rewrite (prepare_relative _ _ _ _ Habs).
Qed.

(** One run for an absolute path, start to end: the artifact is written,
    its cache entry dropped, the loader runs in that world, and the
    artifact is unlinked whether the loader returns or throws. *)
Lemma executeTypescriptModule_run code filePath isEsm w :
  Path.isAbsolute filePath = true →
  let tempFile := tempFileOf filePath isEsm in
  let loaded := loaderOf ext isEsm tempFile (staged tempFile code w) in
  executeTypescriptModule ext code filePath isEsm w
  = (match loaded.1 with
     | Returned raw => Returned (coalesce (optDefault raw) raw)
     | Threw err => Threw (hijack tempFile filePath err)
     end,
     {| files := delete tempFile (<[tempFile := code]> (files w));
        requireCache := loaded.2;
        calls := calls w ++ [callOf isEsm tempFile] |}).
Proof.
  intros Habs tempFile loaded. subst loaded.
  unfold executeTypescriptModule. fold tempFile.
  unfold bind, tryCatch, Fs.writeFileSync, Require.resolve,
    Require.cacheDelete, Fs.unlinkSync, ret, throw. simpl.
  unfold tempFile at 1. rewrite isAbsolute_tempFileOf, Habs. fold tempFile.
  rewrite lookup_insert_eq. simpl.
  unfold loaderOf, callOf, staged, dynamicImport, require, runLoader.
  destruct isEsm; simpl.
  - destruct (ext_dynamicImport ext tempFile _) as [[raw|err] cache]; simpl;
      by rewrite lookup_insert_eq.
  - destruct (ext_require ext tempFile _) as [[raw|err] cache]; simpl;
      by rewrite lookup_insert_eq.
Qed.

(** One run for a path that is not absolute: [require.resolve] throws
    between the write and the [try]; no loader runs, nothing is unlinked. *)
Lemma executeTypescriptModule_unresolved code filePath isEsm w :
  Path.isAbsolute filePath = false →
  let tempFile := tempFileOf filePath isEsm in
  executeTypescriptModule ext code filePath isEsm w
  = (Threw (Require.moduleNotFound tempFile),
     {| files := <[tempFile := code]> (files w);
        requireCache := requireCache w;
        calls := calls w |}).
Proof.
  intros Hrel tempFile.
  unfold executeTypescriptModule. fold tempFile.
  unfold bind, Fs.writeFileSync, Require.resolve. simpl.
  unfold tempFile at 1. by rewrite isAbsolute_tempFileOf, Hrel.
Qed.

(** For an absolute path the artifact, which is in place with the compiled
    code when the loader runs, is gone from the file system when the call
    is over, whether the call returns or throws; every other file is as it
    was. *)
Lemma artifact_deleted_when_resolved code filePath isEsm w :
  Path.isAbsolute filePath = true →
  let tempFile := tempFileOf filePath isEsm in
  let run := executeTypescriptModule ext code filePath isEsm w in
  files (staged tempFile code w) !! tempFile = Some code
  ∧ files run.2 !! tempFile = None
  ∧ ∀ p, p ≠ tempFile → files run.2 !! p = files w !! p.
Proof.
  intros Habs tempFile run. subst run.
  rewrite (executeTypescriptModule_run _ _ _ _ Habs).
  fold tempFile. simpl. split_and!.
  - apply lookup_insert_eq.
  - apply lookup_delete_eq.
  - intros p Hp. by rewrite lookup_delete_ne, lookup_insert_ne.
Qed.

(** C10: when the load is reached (what precedes the [try] returns) and
    the loader throws a value that is not an [Error], the call throws that
    very value, and the artifact is gone. *)
Theorem C10_non_error_rethrown_unmodified code filePath isEsm w ready
    v cache :
  let tempFile := tempFileOf filePath isEsm in
  prepare tempFile code w = (Returned (), ready) →
  loaderOf ext isEsm tempFile ready = (Threw (ThrownValue v), cache) →
  let run := executeTypescriptModule ext code filePath isEsm w in
  run.1 = Threw (ThrownValue v) ∧ files run.2 !! tempFile = None.
Proof.
  intros tempFile [Habs ->]%prepare_returns Hload run. subst run.
  rewrite (executeTypescriptModule_run _ _ _ _ Habs).
  fold tempFile in Hload |- *. rewrite Hload. simpl.
  split; [done|]. apply lookup_delete_eq.
Qed.

End ExecuteFacts.

Section ExecuteExamples.
Import JsString Execute.

Lemma C10_witness_thrown_string :
  let run :=
    executeTypescriptModule (Samples.sampleExt Samples.throwsString)
      "throw 'x';" "/proj/build.config.ts" true Samples.sampleWorld in
  run.1 = Threw (ThrownValue (VStr "cannot run /proj/build.config.ts.mjs"))
  ∧ files run.2 !! "/proj/build.config.ts.mjs" = None.
Proof.
  apply (C10_non_error_rethrown_unmodified
           (Samples.sampleExt Samples.throwsString)
           "throw 'x';" "/proj/build.config.ts" true Samples.sampleWorld
           (staged "/proj/build.config.ts.mjs" "throw 'x';"
              Samples.sampleWorld)
           (VStr "cannot run /proj/build.config.ts.mjs") ∅);
    reflexivity.
Defined.

(** C4 fails on the code: [require.resolve] stands after the write and
    before the [try], and throws for a path that is not absolute, which a
    caller of [loadConfig] can pass. The call then ends with that error, no
    loader has run, and the artifact is still in the file system. *)
Theorem C4_artifact_left_when_resolve_throws :
  let run :=
    executeTypescriptModule (Samples.sampleExt Samples.exportsDefault)
      "exports.default = {};" "build.config.ts" false Samples.sampleWorld in
  run.1 = Threw (Require.moduleNotFound "build.config.ts.cjs")
  ∧ files run.2 !! "build.config.ts.cjs" = Some "exports.default = {};"
  ∧ calls run.2 = [].
Proof. by vm_compute. Qed.

(** A successful load: the default export is returned, the world has the
    files it had before and one more recorded call. *)
Example execute_returns_default :
  executeTypescriptModule (Samples.sampleExt Samples.exportsDefault)
    "exports.default = { a: 1 };" "/proj/build.config.ts" false
    Samples.sampleWorld
  = (Returned (VObj {[ "a" := VNum 1 ]}),
     {| files := files Samples.sampleWorld;
        requireCache := ∅;
        calls := [CallRequire "/proj/build.config.ts.cjs"] |}).
Proof. vm_compute. reflexivity. Qed.

(** C3 fails on the code: [replace] with a string pattern rewrites the
    first occurrence only. The error below names the artifact once in its
    message and twice in its stack; the stack of the error that reaches the
    caller still names the artifact. *)
Theorem C3_stack_still_names_artifact :
  let filePath := "/proj/build.config.ts" in
  let tempFile := tempFileOf filePath true in
  let run :=
    executeTypescriptModule (Samples.sampleExt Samples.failsNamingFile)
      "export default {" filePath true Samples.sampleWorld in
  Samples.failsNamingFile tempFile
  = Threw (ThrownError
      "Unexpected token in /proj/build.config.ts.mjs"
      "SyntaxError: Unexpected token in /proj/build.config.ts.mjs at /proj/build.config.ts.mjs:1:7")
  ∧ run.1
    = Threw (ThrownError
        "Unexpected token in /proj/build.config.ts"
        "SyntaxError: Unexpected token in /proj/build.config.ts at /proj/build.config.ts.mjs:1:7")
  ∧ includes
      "SyntaxError: Unexpected token in /proj/build.config.ts at /proj/build.config.ts.mjs:1:7"
      tempFile = true.
Proof. vm_compute. done. Qed.

(** The same on [replace] alone. *)
Example replace_first_occurrence_only :
  replace "a.mjs and a.mjs" "a.mjs" "a" = "a and a.mjs".
Proof. reflexivity. Qed.

End ExecuteExamples.

(** ** loadConfig *)

Section LoadFacts.
Import JsString Execute Load.

Variable ext : Externals.

Lemma isJs_not_isTs filePath : isJs filePath = true → isTs filePath = false.
Proof.
  unfold isJs, isTs. induction filePath as [|c s IH].
  - done.
  - rewrite !(endsWith_unfold (String c s)).
    intros [H%String.eqb_eq|H]%orb_true_iff.
    + injection H as -> ->. reflexivity.
    + rewrite (IH H), orb_false_r. apply String.eqb_neq. intros Heq.
      injection Heq as -> ->. done.
Qed.

(** A plain script is loaded by the loader its classification selects:
    the default export of the dynamic import, or the whole value that
    [require] returns. *)
Lemma loadConfig_plain_script filePath pkg w :
  isJson filePath = false →
  isJs filePath = true →
  loadConfig ext filePath pkg w
  = if isESM pkg filePath
    then (imported <- dynamicImport ext filePath ;;
          ret (optDefault imported))%js w
    else require ext filePath w.
Proof.
  intros Hjson Hjs. unfold loadConfig.
  rewrite Hjson, Hjs, (isJs_not_isTs _ Hjs), !andb_true_r.
  destruct (isESM pkg filePath); simpl; unfold bind, ret.
  - by destruct (dynamicImport ext filePath w) as [[?|?] ?].
  - by destruct (require ext filePath w) as [[?|?] ?].
Qed.

(** A typed source is compiled for the module system of its
    classification and the code is handed to [executeTypescriptModule]
    with that classification. *)
Lemma loadConfig_typed_source filePath pkg w :
  isJson filePath = false →
  isTs filePath = true →
  loadConfig ext filePath pkg w
  = (code <- buildConfig ext filePath
               (if isESM pkg filePath then Esm else Cjs) ;;
     executeTypescriptModule ext code filePath (isESM pkg filePath))%js w.
Proof.
  intros Hjson Hts. unfold loadConfig. rewrite Hjson, Hts.
  assert (isJs filePath = false) as ->.
  { destruct (isJs filePath) eqn:Hjs; [|done].
    apply isJs_not_isTs in Hjs. congruence. }
  rewrite !andb_false_r. unfold bind, ret.
  destruct (buildConfig ext filePath _ w) as [[code|?] w1]; [|done].
  by destruct (executeTypescriptModule ext code filePath _ w1) as [[?|?] ?].
Qed.

(** C7 (amended): a path is classified as an ES module exactly when it
    ends with the letters [mjs] or [mts], or the manifest has type [module]
    and the path ends with the letters [js] or [ts]; no dot is asked for
    before them. Every path the dotted rule of the specification classifies
    as an ES module is classified so. *)
Theorem C7_isESM_by_suffix_letters pkg filePath :
  (isESM pkg filePath = true ↔
     (∃ stem, filePath = stem +:+ "mjs" ∨ filePath = stem +:+ "mts")
     ∨ (isTypeModule pkg = true
        ∧ ∃ stem, filePath = stem +:+ "js" ∨ filePath = stem +:+ "ts"))
  ∧ (claimedESM pkg filePath = true → isESM pkg filePath = true).
Proof.
  assert (∀ a b, endsWith filePath a || endsWith filePath b = true ↔
                 ∃ stem, filePath = stem +:+ a ∨ filePath = stem +:+ b)
    as Hor.
  { intros a b. rewrite orb_true_iff, !endsWith_spec. split.
    - intros [[stem ->]|[stem ->]]; exists stem; auto.
    - intros [stem [->| ->]]; [left|right]; by exists stem. }
  assert (isESM pkg filePath = true ↔
     (∃ stem, filePath = stem +:+ "mjs" ∨ filePath = stem +:+ "mts")
     ∨ (isTypeModule pkg = true
        ∧ ∃ stem, filePath = stem +:+ "js" ∨ filePath = stem +:+ "ts"))
    as Hiff.
  { unfold isESM, some. simpl. rewrite !orb_false_r.
    by rewrite orb_true_iff, andb_true_iff, !Hor. }
  split; [exact Hiff|].
  unfold claimedESM. intros H. apply Hiff.
  apply orb_true_iff in H as [H|H].
  - left. apply Hor. apply orb_true_iff in H as [H|H].
    + by rewrite (endsWith_longer _ "." "mjs" H).
    + by rewrite (endsWith_longer _ "." "mts" H), orb_true_r.
  - right. apply andb_true_iff in H as [Hm H]. split; [done|].
    apply Hor. apply orb_true_iff in H as [H|H].
    + by rewrite (endsWith_longer _ "." "js" H).
    + by rewrite (endsWith_longer _ "." "ts" H), orb_true_r.
Qed.

(** C8: a path that ends with [.json] is read and handed to the JSON5
    parser, whose outcome is the outcome of the call; the world is left as
    it was, so no loader and no compiler has been called. *)
Theorem C8_json_parsed_and_returned filePath pkg w :
  endsWith filePath ".json" = true →
  loadConfig ext filePath pkg w
  = (match files w !! filePath with
     | Some text => ext_JSON5_parse ext text
     | None => Threw (Fs.enoent "open" filePath)
     end, w).
Proof.
  intros Hjson. unfold loadConfig, isJson. rewrite Hjson.
  unfold bind, Fs.readFileSync, JSON5_parse.
  by destruct (files w !! filePath).
Qed.

End LoadFacts.

Section LoadExamples.
Import JsString Execute Load.

(** C7 as stated fails: under a manifest of type [module] a [.cjs] file is
    classified as an ES module, which the dotted rule does not say. *)
Lemma C7_counterexample_cjs_in_module_package :
  isJson "/proj/build.config.cjs" = false
  ∧ isTypeModule Samples.modulePkg = true
  ∧ claimedESM Samples.modulePkg "/proj/build.config.cjs" = false
  ∧ isESM Samples.modulePkg "/proj/build.config.cjs" = true.
Proof. by vm_compute. Qed.

Example isESM_table :
  isESM Samples.plainPkg "/proj/build.config.mjs" = true
  ∧ isESM Samples.plainPkg "/proj/build.config.mts" = true
  ∧ isESM Samples.plainPkg "/proj/build.config.js" = false
  ∧ isESM Samples.plainPkg "/proj/build.config.ts" = false
  ∧ isESM Samples.modulePkg "/proj/build.config.js" = true
  ∧ isESM Samples.modulePkg "/proj/build.config.ts" = true
  ∧ isESM Samples.plainPkg "/proj/build.config.cjs" = false
  ∧ isESM VUndefined "/proj/build.config.js" = false.
Proof. by vm_compute. Qed.

(** The example of the specification: [{a:1, /*c*/ b:2,}] loads as
    [{a:1, b:2}]. *)
Lemma C8_witness_spec_example :
  loadConfig (Samples.sampleExt Samples.exportsDefault) "/proj/build.json"
    Samples.plainPkg Samples.sampleWorld
  = (Returned (VObj {[ "a" := VNum 1; "b" := VNum 2 ]}), Samples.sampleWorld).
Proof.
  rewrite (C8_json_parsed_and_returned
             (Samples.sampleExt Samples.exportsDefault) "/proj/build.json"
             Samples.plainPkg Samples.sampleWorld eq_refl).
  vm_compute. reflexivity.
Defined.

End LoadExamples.

(** ** resolveConfigFile *)

Section ResolveFacts.
Import Resolve.

Variable ext : Externals.
Variable cwd : string.

Lemma isAbsolute_nonempty p : Path.isAbsolute p = true → p ≠ "".
Proof. by destruct p. Qed.

(** C9: an explicit absolute path is returned as it is, an explicit
    relative path is resolved against [rootDir], in both cases without a
    look at the file system; without an explicit path (none, or the empty
    string, which JavaScript takes for none) the result is the first match
    of the search rooted at [rootDir], and nothing when the search has no
    match. The world is never changed. *)
Theorem C9_resolveConfigFile_cases configFile commandArgs rootDir w :
  let run := resolveConfigFile ext cwd configFile commandArgs rootDir w in
  let found := ext_fg ext configFile rootDir (files w) in
  (∀ p, config commandArgs = Some p → Path.isAbsolute p = true →
        run = (Returned (Some p), w))
  ∧ (∀ p, config commandArgs = Some p → p ≠ "" →
          Path.isAbsolute p = false →
          run = (Returned (Some (Path.resolve cwd [rootDir; p])), w))
  ∧ (config commandArgs = None ∨ config commandArgs = Some "" →
     run = (Returned (head found), w)
     ∧ (found = [] → run = (Returned None, w))).
Proof.
  intros run found. subst run found. unfold resolveConfigFile.
  split_and!.
  - intros p -> Habs.
    assert (Merge.truthyString p = true) as Ht
      by (apply truthyString_true; by apply isAbsolute_nonempty).
    by rewrite Ht, Habs.
  - intros p -> Hne Hrel.
    assert (Merge.truthyString p = true) as Ht by (by apply truthyString_true).
    by rewrite Ht, Hrel.
  - intros [-> | ->]; simpl; unfold bind, fg, ret; simpl;
      (split; [done|by intros ->]).
Qed.

End ResolveFacts.

Section ResolveExamples.
Import Resolve.

(** The example of the specification: [cfg.ts] under [/proj]. *)
Lemma C9_witness_spec_example :
  resolveConfigFile (Samples.sampleExt Samples.exportsDefault) "/home/user"
    (inl "build.json") {| config := Some "cfg.ts"; mode := "" |} "/proj"
    Samples.sampleWorld
  = (Returned (Some "/proj/cfg.ts"), Samples.sampleWorld).
Proof.
  pose proof (C9_resolveConfigFile_cases
                (Samples.sampleExt Samples.exportsDefault) "/home/user"
                (inl "build.json") {| config := Some "cfg.ts"; mode := "" |}
                "/proj" Samples.sampleWorld) as (_ & Hrel & _).
  rewrite (Hrel "cfg.ts" eq_refl ltac:(discriminate) eq_refl).
  reflexivity.
Defined.

Example resolve_absolute_as_is :
  resolveConfigFile (Samples.sampleExt Samples.exportsDefault) "/home/user"
    (inl "build.json") {| config := Some "/etc/missing.js"; mode := "" |}
    "/proj" Samples.sampleWorld
  = (Returned (Some "/etc/missing.js"), Samples.sampleWorld).
Proof. reflexivity. Qed.

Example resolve_by_search :
  resolveConfigFile (Samples.sampleExt Samples.exportsDefault) "/home/user"
    (inr ["build.config.ts"; "build.json"]) {| config := None; mode := "" |}
    "/proj" Samples.sampleWorld
  = (Returned (Some "/proj/build.config.ts"), Samples.sampleWorld).
Proof. vm_compute. reflexivity. Qed.

Example resolve_no_match :
  resolveConfigFile (Samples.sampleExt Samples.exportsDefault) "/home/user"
    (inl "build.json") {| config := None; mode := "" |}
    "/elsewhere" Samples.sampleWorld
  = (Returned None, Samples.sampleWorld).
Proof. vm_compute. reflexivity. Qed.

End ResolveExamples.

(** * Further properties *)

(** ** mergeModeConfig: what a merge keeps, adds and overwrites *)

Section MergeListFacts.
Import Merge.

Lemma entryAt_untouched keys plugins j b :
  keys !! j = Some (pluginKey b) →
  pluginKey b ∉ map pluginKey plugins →
  entryAt keys plugins j b = b.
Proof.
  intros Hj Hnot. unfold entryAt.
  destruct (last _) as [e|] eqn:Hlast; [|done]. exfalso.
  apply last_Some_elem_of, list_elem_of_filter in Hlast as [Hfi He].
  apply firstIndexOf_Some in Hfi as [Hk _].
  apply Hnot. change (map pluginKey) with (fmap (M:=list) pluginKey).
  apply list_elem_of_fmap. exists e. split; [congruence|done].
Qed.

(** In a list whose identifiers are pairwise distinct an entry is
    determined by its identifier. *)
Lemma NoDup_keys_eq (l : list PluginEntry) x y :
  NoDup (map pluginKey l) → x ∈ l → y ∈ l → pluginKey x = pluginKey y → x = y.
Proof.
  intros Hnd Hx Hy Hk.
  apply list_elem_of_lookup in Hx as [i Hi].
  apply list_elem_of_lookup in Hy as [j Hj].
  assert (i = j) as ->.
  { change (map pluginKey) with (fmap (M:=list) pluginKey) in Hnd.
    apply (NoDup_lookup _ i j (pluginKey x) Hnd).
    - by rewrite list_lookup_fmap, Hi.
    - rewrite list_lookup_fmap, Hj. simpl. by rewrite Hk. }
  congruence.
Qed.

Lemma reconciled_lookup_base base plugins j b :
  base !! j = Some b →
  reconciled base plugins !! j
  = Some (entryAt (map pluginKey base) plugins j b).
Proof.
  intros Hb. unfold reconciled.
  rewrite lookup_app_l by (rewrite length_imap; by eapply lookup_lt_Some).
  by rewrite list_lookup_imap, Hb.
Qed.

Lemma reconciled_elem_of base plugins e :
  NoDup (map pluginKey plugins) → e ∈ plugins → e ∈ reconciled base plugins.
Proof.
  intros Hnd He. unfold reconciled. apply elem_of_app.
  destruct (firstIndexOf (map pluginKey base) (pluginKey e)) as [j|] eqn:Hfi.
  - left. apply list_elem_of_lookup. exists j.
    pose proof Hfi as [Hk _]%firstIndexOf_Some.
    change (map pluginKey) with (fmap (M:=list) pluginKey) in Hk.
    rewrite list_lookup_fmap in Hk.
    destruct (base !! j) as [b|] eqn:Hb; [|done].
    rewrite list_lookup_imap, Hb. simpl. f_equal. unfold entryAt.
    destruct (last _) as [e'|] eqn:Hlast; simpl.
    + apply last_Some_elem_of, list_elem_of_filter in Hlast as [Hfi' He'].
      apply (NoDup_keys_eq plugins); [done..|].
      apply firstIndexOf_Some in Hfi' as [Hk' _].
      apply firstIndexOf_Some in Hfi as [Hk'' _]. congruence.
    + apply last_None in Hlast.
      assert (e ∈ filter
                (λ e0, firstIndexOf (map pluginKey base) (pluginKey e0) = Some j)
                plugins) as Hin by (by apply list_elem_of_filter).
      rewrite Hlast in Hin. by apply elem_of_nil in Hin.
  - right. apply list_elem_of_filter. split; [|done].
    by apply firstIndexOf_None.
Qed.

End MergeListFacts.

Section MergeApplied.
Import Merge.

Variables (mode : string) (userConfig : UserConfig).
Variables (mc : gmap string PartialConfig) (override : PartialConfig).
Variable modePlugins : list PluginEntry.

Hypothesis mode_named : mode ≠ "".
Hypothesis has_modeConfig : modeConfig userConfig = Some mc.
Hypothesis has_entry : mc !! mode = Some override.
Hypothesis has_plugins : pc_plugins override = Some modePlugins.

Let base := plugins userConfig.
Let result := plugins (mergeModeConfig mode userConfig).

Lemma merged_plugins_reconciled : result = reconciled base modePlugins.
Proof.
  subst result base.
  rewrite (mergeModeConfig_applies _ _ _ _ mode_named has_modeConfig has_entry).
  simpl. rewrite has_plugins. apply mergePlugins_reconciled.
Qed.

(** X1: The merged list is as long as the base list plus the number of
    entries of the mode whose identifier the base list does not have. *)
Theorem merge_plugins_length :
  length result
  = (length base
     + length (filter (λ e, pluginKey e ∉ map pluginKey base) modePlugins))%nat.
Proof.
  rewrite merged_plugins_reconciled. unfold reconciled.
  by rewrite length_app, length_imap.
Qed.

(** X2: An identifier is in the merged list exactly when it is in the base list
    or in the mode's list. *)
Theorem merge_plugins_identifiers k :
  k ∈ map pluginKey result ↔
  k ∈ map pluginKey base ∨ k ∈ map pluginKey modePlugins.
Proof.
  rewrite merged_plugins_reconciled, keys_reconciled, elem_of_app.
  change (map pluginKey) with (fmap (M:=list) pluginKey).
  split.
  - intros [?|Hin]; [by left|right].
    apply list_elem_of_fmap in Hin as (e & -> & [_ He]%list_elem_of_filter).
    by apply list_elem_of_fmap_2.
  - intros [?|Hin]; [by left|].
    destruct (decide (k ∈ pluginKey <$> base)) as [?|Hnot]; [by left|right].
    apply list_elem_of_fmap in Hin as (e & -> & He).
    apply list_elem_of_fmap_2. by apply list_elem_of_filter.
Qed.

(** X3: A base entry whose identifier the mode does not list stays where it is,
    options included. *)
Theorem merge_plugins_untouched j b :
  base !! j = Some b →
  pluginKey b ∉ map pluginKey modePlugins →
  result !! j = Some b.
Proof.
  intros Hb Hnot. rewrite merged_plugins_reconciled.
  rewrite (reconciled_lookup_base _ _ _ _ Hb). f_equal.
  apply entryAt_untouched; [|done].
  change (map pluginKey) with (fmap (M:=list) pluginKey).
  by rewrite list_lookup_fmap, Hb.
Qed.

(** X4: When the mode lists every identifier once, each of its entries is in
    the merged list as the mode wrote it. *)
Theorem merge_plugins_mode_entries_present e :
  NoDup (map pluginKey modePlugins) →
  e ∈ modePlugins →
  e ∈ result.
Proof.
  intros Hnd He. rewrite merged_plugins_reconciled.
  by apply reconciled_elem_of.
Qed.

End MergeApplied.

Section MergeTwice.
Import Merge.

Lemma firstIndexOf_app keys more key :
  firstIndexOf (keys ++ more) key
  = match firstIndexOf keys key with
    | Some i => Some i
    | None => (λ i, (length keys + i)%nat) <$> firstIndexOf more key
    end.
Proof.
  unfold firstIndexOf. induction keys as [|k keys IH]; simpl.
  - by destruct (list_find _ more) as [[??]|].
  - destruct (decide (k = key)); simpl; [done|].
    rewrite <- !option_fmap_compose.
    rewrite <- !option_fmap_compose in IH.
    change (fst ∘ prod_map S id) with (S ∘ (fst : nat * string → nat)).
    rewrite !option_fmap_compose, IH.
    destruct (list_find _ keys) as [[??]|]; simpl; [done|].
    by destruct (list_find _ more) as [[??]|].
Qed.

Lemma filter_none {A} (P : A → Prop) `{!∀ x, Decision (P x)} (l : list A) :
  (∀ x, x ∈ l → ¬ P x) → filter P l = [].
Proof.
  induction l as [|x l IH]; intros Hall; [done|].
  rewrite filter_cons_False by (apply Hall; left).
  apply IH. intros y Hy. apply Hall. by right.
Qed.

Lemma reconciled_twice base plugins :
  NoDup (map pluginKey
           (filter (λ e, pluginKey e ∉ map pluginKey base) plugins)) →
  reconciled (reconciled base plugins) plugins = reconciled base plugins.
Proof.
  intros Hnd.
  set (fresh := filter (λ e, pluginKey e ∉ map pluginKey base) plugins) in *.
  assert (map pluginKey (reconciled base plugins)
          = map pluginKey base ++ map pluginKey fresh) as Hkeys
    by apply keys_reconciled.
  unfold reconciled at 1. rewrite Hkeys.
  rewrite (filter_none _ plugins).
  2:{ intros e He Hnot. apply Hnot, elem_of_app.
      destruct (decide (pluginKey e ∈ map pluginKey base)); [by left|right].
      change (map pluginKey) with (fmap (M:=list) pluginKey).
      apply list_elem_of_fmap_2. by apply list_elem_of_filter. }
  rewrite app_nil_r. apply list_eq. intros j.
  rewrite list_lookup_imap.
  destruct (reconciled base plugins !! j) as [r|] eqn:Hr; simpl; [|done].
  f_equal. unfold entryAt at 1.
  destruct (last _) as [e'|] eqn:Hlast; simpl; [|done].
  destruct (decide (j < length base)%nat) as [Hlt|Hge].
  - destruct (lookup_lt_is_Some_2 base j Hlt) as [b Hb].
    rewrite (reconciled_lookup_base _ _ _ _ Hb) in Hr. injection Hr as <-.
    unfold entryAt.
    assert (∀ e, firstIndexOf (map pluginKey base ++ map pluginKey fresh)
                   (pluginKey e) = Some j
                 ↔ firstIndexOf (map pluginKey base) (pluginKey e) = Some j)
      as Hsame.
    { intros e. rewrite firstIndexOf_app.
      destruct (firstIndexOf (map pluginKey base) (pluginKey e)); [done|].
      split; [|done]. intros [i [_ Hi]]%fmap_Some.
      rewrite length_map in Hi. lia. }
    rewrite <- (list_filter_iff _ _ plugins Hsame), Hlast. done.
  - apply last_Some_elem_of, list_elem_of_filter in Hlast as [Hfi He'].
    rewrite firstIndexOf_app in Hfi.
    destruct (firstIndexOf (map pluginKey base) (pluginKey e')) as [i|] eqn:Hb.
    { injection Hfi as ->. apply firstIndexOf_Some in Hb as [Hl _].
      apply lookup_lt_Some in Hl. rewrite length_map in Hl. lia. }
    apply firstIndexOf_None in Hb.
    apply fmap_Some in Hfi as (i & [Hi _]%firstIndexOf_Some & ->).
    rewrite length_map in Hr.
    unfold reconciled in Hr. fold fresh in Hr.
    rewrite lookup_app_r in Hr by (rewrite length_imap; lia).
    rewrite length_imap in Hr.
    replace (length base + i - length base)%nat with i in Hr by lia.
    apply (NoDup_keys_eq fresh); [done| |by eapply list_elem_of_lookup_2|].
    + by apply list_elem_of_filter.
    + change (map pluginKey) with (fmap (M:=list) pluginKey) in Hi.
      rewrite list_lookup_fmap, Hr in Hi. simpl in Hi. congruence.
Qed.

(** X5: Merging the same mode a second time changes nothing more, provided the
    mode's entry has no [modeConfig] of its own and its new identifiers are
    listed once. *)
Theorem merge_twice_is_merge_once mode userConfig :
  (∀ mc override,
     modeConfig userConfig = Some mc →
     mc !! mode = Some override →
     pc_modeConfig override = None
     ∧ ∀ modePlugins,
         pc_plugins override = Some modePlugins →
         NoDup (map pluginKey
                  (filter (λ e, pluginKey e ∉ map pluginKey (plugins userConfig))
                     modePlugins))) →
  mergeModeConfig mode (mergeModeConfig mode userConfig)
  = mergeModeConfig mode userConfig.
Proof.
  intros H. unfold mergeModeConfig at 2.
  destruct (modeConfig userConfig) as [mc|] eqn:Hmc.
  2:{ unfold mergeModeConfig. by rewrite Hmc. }
  destruct (truthyString mode) eqn:Hmode.
  2:{ unfold mergeModeConfig. by rewrite Hmc, Hmode. }
  destruct (mc !! mode) as [override|] eqn:Hov.
  2:{ unfold mergeModeConfig. by rewrite Hmc, Hmode, Hov. }
  destruct (H mc override eq_refl Hov) as [Hown Hnd].
  unfold mergeModeConfig, spread. simpl.
  rewrite Hown, Hmc, Hmode, Hov, Hown. simpl. f_equal.
  - destruct (pc_plugins override) as [modePlugins|]; [|done].
    rewrite !mergePlugins_reconciled. apply reconciled_twice. by apply Hnd.
  - by rewrite (assoc_L (∪)), (idemp_L (∪)).
Qed.

(** X6: Whatever the mode, position for position the first entries of the
    returned list carry the identifiers of the base list: a merge never
    moves, drops or renames a base plugin. *)
Theorem merge_keeps_base_identifiers mode userConfig :
  map pluginKey
    (take (length (plugins userConfig))
       (plugins (mergeModeConfig mode userConfig)))
  = map pluginKey (plugins userConfig).
Proof.
  unfold mergeModeConfig.
  destruct (modeConfig userConfig) as [mc|]; [|by rewrite firstn_all].
  destruct (truthyString mode); [|by rewrite firstn_all].
  destruct (mc !! mode) as [override|]; [|by rewrite firstn_all]. simpl.
  destruct (pc_plugins override) as [modePlugins|]; [|by rewrite firstn_all].
  rewrite mergePlugins_reconciled.
  change (map pluginKey) with (fmap (M:=list) pluginKey).
  rewrite fmap_take.
  change (fmap (M:=list) pluginKey) with (map pluginKey).
  rewrite keys_reconciled. apply take_app_length'. by rewrite length_map.
Qed.

(** X7: The loop never writes outside the array and never shrinks it: with as
    many keys as base entries and a working list no shorter, the index it
    finds is a position of the working list, and the step keeps or extends
    the length. *)
Theorem forEachBody_in_range pluginKeys userPlugins pluginInfo :
  (length pluginKeys ≤ length userPlugins)%nat →
  let pluginIndex := indexOf pluginKeys (pluginKey pluginInfo) in
  (-1 < pluginIndex → pluginIndex < Z.of_nat (length userPlugins))
  ∧ (length userPlugins
     ≤ length (forEachBody pluginKeys userPlugins pluginInfo))%nat.
Proof.
  intros Hlen pluginIndex. subst pluginIndex. unfold indexOf.
  rewrite indexOfFrom_firstIndexOf.
  destruct (firstIndexOf pluginKeys (pluginKey pluginInfo)) as [n|] eqn:Hfi.
  - rewrite (forEachBody_found _ _ _ _ Hfi), length_insert.
    split; [|done]. intros _.
    apply firstIndexOf_Some in Hfi as [Hl _]. apply lookup_lt_Some in Hl. lia.
  - rewrite (forEachBody_fresh _ _ _ Hfi), length_app. simpl.
    split; [lia|lia].
Qed.

End MergeTwice.

(** ** Strings: occurrences and replacement *)

Section OccurrenceFacts.
Import JsString.

Lemma append_nil_l s : "" +:+ s = s.
Proof. reflexivity. Qed.

Lemma append_assoc a b c : (a +:+ b) +:+ c = a +:+ b +:+ c.
Proof.
  induction a as [|x a IH]; [done|]. rewrite !append_cons. by f_equal.
Qed.

Lemma length_append a b :
  String.length (a +:+ b) = (String.length a + String.length b)%nat.
Proof.
  induction a as [|x a IH]; [done|]. rewrite append_cons. simpl. by rewrite IH.
Qed.

Lemma dropPrefix_Some pat s following :
  dropPrefix pat s = Some following ↔ s = pat +:+ following.
Proof.
  revert s. induction pat as [|a pat IH]; intros s; simpl.
  - rewrite append_nil_l. split; congruence.
  - rewrite append_cons. destruct s as [|b s].
    + split; discriminate.
    + destruct (Ascii.eqb_spec a b) as [->|Hne].
      * rewrite IH. split; [by intros ->|by intros [= ->]].
      * split; [discriminate|]. intros [= ? ?]. congruence.
Qed.

Lemma splitFirst_unfold s pat :
  splitFirst s pat
  = match dropPrefix pat s with
    | Some following => Some (EmptyString, following)
    | None =>
        match s with
        | EmptyString => None
        | String c s' =>
            match splitFirst s' pat with
            | Some (preceding, following) => Some (String c preceding, following)
            | None => None
            end
        end
    end.
Proof. by destruct s. Qed.

(** What [splitFirst] finds is an occurrence. *)
Lemma splitFirst_Some s pat preceding following :
  splitFirst s pat = Some (preceding, following) →
  s = preceding +:+ pat +:+ following.
Proof.
  revert preceding. induction s as [|c s IH]; intros preceding;
    rewrite splitFirst_unfold.
  - destruct (dropPrefix pat "") as [f|] eqn:Hd; [|done].
    intros [= <- <-]. by apply dropPrefix_Some in Hd.
  - destruct (dropPrefix pat (String c s)) as [f|] eqn:Hd.
    + intros [= <- <-]. by apply dropPrefix_Some in Hd.
    + destruct (splitFirst s pat) as [[p f]|]; [|done].
      intros [= <- <-]. rewrite append_cons. f_equal. by apply IH.
Qed.

(** Every occurrence is found: a text that holds [pat] anywhere includes
    it. *)
Lemma includes_occurrence preceding pat following :
  includes (preceding +:+ pat +:+ following) pat = true.
Proof.
  unfold includes. induction preceding as [|c p IH];
    rewrite splitFirst_unfold.
  - rewrite append_nil_l.
    by rewrite (proj2 (dropPrefix_Some pat (pat +:+ following) following) eq_refl).
  - rewrite append_cons.
    destruct (dropPrefix pat _) as [f|]; [done|].
    by destruct (splitFirst (p +:+ pat +:+ following) pat) as [[??]|].
Qed.

(** A template without a dollar sign is taken literally. *)
Lemma getSubstitution_plain matched preceding following template :
  includes template "$" = false →
  getSubstitution matched preceding following template = template.
Proof.
  unfold includes. induction template as [|c t IH]; [done|].
  rewrite splitFirst_unfold. cbn [dropPrefix].
  destruct (Ascii.eqb_spec "$" c) as [<-|Hne]; [done|].
  destruct (splitFirst t "$") as [[??]|] eqn:Hs; [done|].
  intros _. cbn [getSubstitution].
  destruct (Ascii.eqb_spec c "$") as [->|_]; [done|].
  f_equal. by apply IH.
Qed.

(** No occurrence starts before the one [splitFirst] finds. *)
Lemma splitFirst_first s pat preceding following :
  splitFirst s pat = Some (preceding, following) →
  ∀ before after,
    s = before +:+ pat +:+ after →
    (String.length preceding ≤ String.length before)%nat.
Proof.
  revert preceding. induction s as [|c s IH]; intros preceding;
    rewrite splitFirst_unfold.
  - destruct (dropPrefix pat "") as [f|] eqn:Hd; [|done].
    intros [= <- <-] before after _. simpl. lia.
  - destruct (dropPrefix pat (String c s)) as [f|] eqn:Hd.
    + intros [= <- <-] before after _. simpl. lia.
    + destruct (splitFirst s pat) as [[p f]|] eqn:Hs; [|done].
      intros [= <- <-] before after Heq.
      destruct before as [|d before].
      * rewrite append_nil_l in Heq.
        apply dropPrefix_Some in Heq. congruence.
      * rewrite append_cons in Heq. injection Heq as -> Heq.
        simpl. apply le_n_S. by eapply IH.
Qed.

(** [replace] puts the template in the place of the first occurrence and
    leaves the text around it alone, when the template has no dollar
    sign. *)
Lemma replace_first_occurrence s pat template :
  includes s pat = true →
  includes template "$" = false →
  ∃ preceding following,
    s = preceding +:+ pat +:+ following
    ∧ (∀ before after,
         s = before +:+ pat +:+ after →
         (String.length preceding ≤ String.length before)%nat)
    ∧ replace s pat template = preceding +:+ template +:+ following
    ∧ includes (replace s pat template) template = true.
Proof.
  unfold includes at 1, replace. intros Hinc Hplain.
  destruct (splitFirst s pat) as [[preceding following]|] eqn:Hs; [|done].
  exists preceding, following. rewrite (getSubstitution_plain _ _ _ _ Hplain).
  split_and!; [by apply splitFirst_Some|by eapply splitFirst_first|done
              |apply includes_occurrence].
Qed.

End OccurrenceFacts.

(** ** executeTypescriptModule: the artifact's name and the loader's view *)

Section ArtifactFacts.
Import JsString Execute.

(** Two texts with equally long endings agree on both parts. *)
Lemma append_same_length_inj a b x y :
  a +:+ x = b +:+ y → String.length x = String.length y → a = b ∧ x = y.
Proof.
  revert b. induction a as [|c a IH]; intros b Heq Hlen.
  - destruct b as [|d b]; [done|]. exfalso.
    rewrite append_nil_l in Heq. subst x.
    rewrite length_append in Hlen. simpl in Hlen. lia.
  - destruct b as [|d b].
    + exfalso. rewrite append_nil_l in Heq. subst y.
      rewrite length_append in Hlen. simpl in Hlen. lia.
    + rewrite !append_cons in Heq. injection Heq as -> Heq.
      destruct (IH b Heq Hlen) as [-> ->]. done.
Qed.

(** X8: Sources and module systems never share an artifact: the artifact's
    path determines both. *)
Theorem tempFileOf_inj filePath1 isEsm1 filePath2 isEsm2 :
  tempFileOf filePath1 isEsm1 = tempFileOf filePath2 isEsm2 →
  filePath1 = filePath2 ∧ isEsm1 = isEsm2.
Proof.
  unfold tempFileOf. intros Heq.
  apply append_same_length_inj in Heq as [-> Hsuffix].
  - split; [done|]. by destruct isEsm1, isEsm2.
  - by destruct isEsm1, isEsm2.
Qed.

Lemma tempFileOf_ne filePath isEsm : tempFileOf filePath isEsm ≠ filePath.
Proof.
  unfold tempFileOf. intros Heq.
  apply (f_equal String.length) in Heq. rewrite length_append in Heq.
  destruct isEsm; simpl in Heq; lia.
Qed.

(** The artifact carries the suffix of its module system, so a loader that
    goes by suffix treats it as what it was compiled for. *)
Theorem tempFileOf_suffix filePath isEsm :
  endsWith (tempFileOf filePath isEsm) (if isEsm then ".mjs" else ".cjs")
  = true.
Proof.
  apply endsWith_spec. exists filePath. unfold tempFileOf. by destruct isEsm.
Qed.

Variable ext : Externals.

(** X9: The source file is never written or removed by a run. *)
Theorem execute_leaves_source code filePath isEsm w :
  files (executeTypescriptModule ext code filePath isEsm w).2 !! filePath
  = files w !! filePath.
Proof.
  pose proof (tempFileOf_ne filePath isEsm).
  destruct (Path.isAbsolute filePath) eqn:Habs.
  - rewrite (executeTypescriptModule_run _ _ _ _ _ Habs). simpl.
    by rewrite lookup_delete_ne, lookup_insert_ne.
  - rewrite (executeTypescriptModule_unresolved _ _ _ _ _ Habs). simpl.
    by rewrite lookup_insert_ne.
Qed.

(** X10: When the load is reached, a run has the same outcome and leaves
    the same world whether or not an older artifact lies at the temporary
    path and whether or not the [require] cache holds an entry for it: the
    artifact is rewritten and the entry dropped before the loader runs. In
    every case the outcome and the files left are the same. *)
Theorem execute_ignores_stale_state code filePath isEsm w leftover cached :
  let tempFile := tempFileOf filePath isEsm in
  let stale :=
    {| files := <[tempFile := leftover]> (files w);
       requireCache := <[tempFile := cached]> (requireCache w);
       calls := calls w |} in
  let run := executeTypescriptModule ext code filePath isEsm in
  (∀ ready, prepare tempFile code w = (Returned (), ready) →
            run stale = run w)
  ∧ (run stale).1 = (run w).1
  ∧ files (run stale).2 = files (run w).2.
Proof.
  intros tempFile stale run. subst run.
  destruct (Path.isAbsolute filePath) eqn:Habs.
  - assert (executeTypescriptModule ext code filePath isEsm stale
            = executeTypescriptModule ext code filePath isEsm w) as ->; [|done].
    rewrite !(executeTypescriptModule_run _ _ _ _ _ Habs). fold tempFile.
    unfold staged, stale. simpl.
    by rewrite insert_insert_eq, delete_insert_eq.
  - split.
    { intros ready [Habs' _]%prepare_returns. congruence. }
    rewrite !(executeTypescriptModule_unresolved _ _ _ _ _ Habs).
    fold tempFile. unfold stale. simpl. by rewrite insert_insert_eq.
Qed.

(** X11: When the load is reached and the loader returns, the call returns
    the [default] property of what was loaded if that is neither missing,
    [undefined] nor [null], and the loaded value itself otherwise; the
    loader was called once, on the artifact, and its cache is the cache
    afterwards. *)
Theorem execute_returns_default_or_whole code filePath isEsm w ready
    raw cache :
  let tempFile := tempFileOf filePath isEsm in
  prepare tempFile code w = (Returned (), ready) →
  loaderOf ext isEsm tempFile ready = (Returned raw, cache) →
  let run := executeTypescriptModule ext code filePath isEsm w in
  run.1
  = Returned
      match raw with
      | VObj m =>
          match m !! "default" with
          | Some VUndefined | Some VNull | None => raw
          | Some exported => exported
          end
      | _ => raw
      end
  ∧ requireCache run.2 = cache
  ∧ calls run.2 = calls w ++ [callOf isEsm tempFile].
Proof.
  intros tempFile [Habs ->]%prepare_returns Hload run. subst run.
  rewrite (executeTypescriptModule_run _ _ _ _ _ Habs).
  fold tempFile in Hload |- *. rewrite Hload. simpl.
  split_and!; [|done..]. f_equal. unfold coalesce, optDefault.
  destruct raw as [| | | | | |m]; try done.
  by destruct (m !! "default") as [[]|].
Qed.

(** X12: When the load is reached and the loader throws an [Error] whose
    message and stack do not name the artifact, the error is thrown again
    as it came. *)
Theorem execute_rethrows_unrelated_error code filePath isEsm w ready
    message stack cache :
  let tempFile := tempFileOf filePath isEsm in
  prepare tempFile code w = (Returned (), ready) →
  loaderOf ext isEsm tempFile ready
  = (Threw (ThrownError message stack), cache) →
  includes message tempFile = false →
  includes stack tempFile = false →
  (executeTypescriptModule ext code filePath isEsm w).1
  = Threw (ThrownError message stack).
Proof.
  intros tempFile [Habs ->]%prepare_returns Hload Hm Hs.
  rewrite (executeTypescriptModule_run _ _ _ _ _ Habs).
  fold tempFile in Hload |- *. rewrite Hload. simpl.
  by rewrite !replace_absent.
Qed.

(** X13: When the load is reached and the loader throws an [Error] whose
    message names the artifact, the message of the error thrown again is
    the old one with the first mention of the artifact, the one no other
    mention starts before, replaced by the source path and the text before
    and after it kept, provided the source path has no dollar sign. *)
Theorem execute_rewrites_first_mention code filePath isEsm w ready
    message stack cache :
  let tempFile := tempFileOf filePath isEsm in
  prepare tempFile code w = (Returned (), ready) →
  loaderOf ext isEsm tempFile ready
  = (Threw (ThrownError message stack), cache) →
  includes message tempFile = true →
  includes filePath "$" = false →
  ∃ preceding following,
    message = preceding +:+ tempFile +:+ following
    ∧ (∀ before after,
         message = before +:+ tempFile +:+ after →
         (String.length preceding ≤ String.length before)%nat)
    ∧ thrownMessage (executeTypescriptModule ext code filePath isEsm w).1
      = Some (preceding +:+ filePath +:+ following)
    ∧ includes (preceding +:+ filePath +:+ following) filePath = true.
Proof.
  intros tempFile [Habs ->]%prepare_returns Hload Hm Hplain.
  destruct (replace_first_occurrence message tempFile filePath Hm Hplain)
    as (preceding & following & Hsplit & Hfirst & Hrep & Hinc).
  exists preceding, following.
  rewrite (executeTypescriptModule_run _ _ _ _ _ Habs).
  fold tempFile in Hload |- *. rewrite Hload. simpl.
  rewrite Hrep in *. done.
Qed.

End ArtifactFacts.

(** ** loadConfig: one format per path, one way to load it *)

Section SuffixFacts.
Import JsString Load.

Lemma endsWith_length s suffix :
  endsWith s suffix = true → (String.length suffix ≤ String.length s)%nat.
Proof.
  intros [stem ->]%endsWith_spec. rewrite length_append. lia.
Qed.

(** Of two endings of one text the shorter is an ending of the longer. *)
Lemma endsWith_both s a b :
  endsWith s a = true → endsWith s b = true →
  (String.length a ≤ String.length b)%nat →
  endsWith b a = true.
Proof.
  induction s as [|c s IH].
  - rewrite (endsWith_unfold "" a), (endsWith_unfold "" b), !orb_false_r.
    intros <-%String.eqb_eq <-%String.eqb_eq _. reflexivity.
  - rewrite (endsWith_unfold (String c s) a), (endsWith_unfold (String c s) b).
    intros [Ha%String.eqb_eq|Ha]%orb_true_iff [Hb%String.eqb_eq|Hb]%orb_true_iff
      Hlen.
    + subst a b. by rewrite endsWith_unfold, String.eqb_refl.
    + subst a. apply endsWith_length in Hb. simpl in Hlen. lia.
    + subst b. by rewrite endsWith_unfold, Ha, orb_true_r.
    + by apply IH.
Qed.

Lemma isJson_not_script filePath :
  isJson filePath = true → isJs filePath = false ∧ isTs filePath = false.
Proof.
  unfold isJson, isJs, isTs. intros Hjson. split.
  - destruct (endsWith filePath "js") eqn:Hjs; [|done].
    by pose proof (endsWith_both _ _ _ Hjs Hjson ltac:(simpl; lia)).
  - destruct (endsWith filePath "ts") eqn:Hts; [|done].
    by pose proof (endsWith_both _ _ _ Hts Hjson ltac:(simpl; lia)).
Qed.

(** X14: The three suffix tests exclude one another: a path is structured data,
    a plain script, a typed source, or none of them. *)
Theorem suffix_tests_exclusive filePath :
  (isJson filePath = true → isJs filePath = false ∧ isTs filePath = false)
  ∧ (isJs filePath = true → isTs filePath = false).
Proof.
  split; [apply isJson_not_script|apply isJs_not_isTs].
Qed.

End SuffixFacts.

Section LoadMore.
Import JsString Execute Load.

Variable ext : Externals.

(** X15: A path that is neither structured data nor a script nor a typed source
    loads as [undefined]: no file is read, nothing is called, nothing is
    thrown. *)
Theorem loadConfig_unknown_suffix filePath pkg w :
  isJson filePath = false →
  isJs filePath = false →
  isTs filePath = false →
  loadConfig ext filePath pkg w = (Returned VUndefined, w).
Proof.
  intros Hjson Hjs Hts. unfold loadConfig.
  by rewrite Hjson, Hjs, Hts, !andb_false_r.
Qed.

(** X16: A plain script is handed to one loader, on its own path: the dynamic
    import for an ES module, of which the [default] export is the result
    ([undefined] when there is none), [require] otherwise, of which the
    whole value is the result. What the loader throws is thrown as it is,
    and no file is touched. *)
Theorem loadConfig_plain_script_result filePath pkg w :
  isJson filePath = false →
  isJs filePath = true →
  let esm := isESM pkg filePath in
  let loaded := loaderOf ext esm filePath w in
  loadConfig ext filePath pkg w
  = (match loaded.1 with
     | Returned exported =>
         Returned (if esm then optDefault exported else exported)
     | Threw err => Threw err
     end,
     {| files := files w;
        requireCache := loaded.2;
        calls := calls w ++ [callOf esm filePath] |}).
Proof.
  intros Hjson Hjs esm loaded. subst esm loaded.
  rewrite (loadConfig_plain_script _ _ _ _ Hjson Hjs).
  unfold loaderOf, callOf, bind, ret, dynamicImport, require, runLoader.
  destruct (isESM pkg filePath).
  - by destruct (ext_dynamicImport ext filePath w) as [[?|?] ?].
  - by destruct (ext_require ext filePath w) as [[?|?] ?].
Qed.

(** X17: When the compiler throws, [loadConfig] throws the same: no artifact has
    been written and no loader called. *)
Theorem loadConfig_compile_failure filePath pkg w err :
  isJson filePath = false →
  isTs filePath = true →
  let format := if isESM pkg filePath then Esm else Cjs in
  ext_buildConfig ext filePath format w = Threw err →
  loadConfig ext filePath pkg w
  = (Threw err,
     {| files := files w;
        requireCache := requireCache w;
        calls := calls w ++ [CallBuildConfig filePath format] |}).
Proof.
  intros Hjson Hts format Hbuild. subst format.
  rewrite (loadConfig_typed_source _ _ _ _ Hjson Hts).
  unfold bind, buildConfig. by rewrite Hbuild.
Qed.

(** X18: [loadConfig] changes no file other than the one at the artifact
    path of the given file. For an absolute path, when nothing lay at the
    artifact path, the file system is as it was. *)
Theorem loadConfig_preserves_files filePath pkg w :
  let tempFile := tempFileOf filePath (isESM pkg filePath) in
  let after := files (loadConfig ext filePath pkg w).2 in
  (∀ p, p ≠ tempFile → after !! p = files w !! p)
  ∧ (Path.isAbsolute filePath = true →
     files w !! tempFile = None → after = files w).
Proof.
  intros tempFile after.
  assert (after = files w
          ∨ (Path.isAbsolute filePath = true
             ∧ after = delete tempFile (files w))
          ∨ (Path.isAbsolute filePath = false
             ∧ ∃ code, after = <[tempFile := code]> (files w))) as Hcases.
  { subst after. destruct (isJson filePath) eqn:Hjson.
    - left. unfold loadConfig. rewrite Hjson.
      unfold bind, Fs.readFileSync, JSON5_parse.
      by destruct (files w !! filePath).
    - destruct (isJs filePath) eqn:Hjs.
      + left. rewrite (loadConfig_plain_script _ _ _ _ Hjson Hjs).
        unfold bind, ret, dynamicImport, require, runLoader.
        destruct (isESM pkg filePath).
        * by destruct (ext_dynamicImport ext filePath w) as [[?|?] ?].
        * by destruct (ext_require ext filePath w) as [[?|?] ?].
      + destruct (isTs filePath) eqn:Hts.
        * rewrite (loadConfig_typed_source _ _ _ _ Hjson Hts).
          unfold bind, buildConfig.
          destruct (ext_buildConfig ext filePath _ w) as [code|err];
            [|by left].
          right. destruct (Path.isAbsolute filePath) eqn:Habs.
          -- left. split; [done|].
             rewrite (executeTypescriptModule_run _ _ _ _ _ Habs). simpl.
             by rewrite delete_insert_eq.
          -- right. split; [done|]. exists code.
             by rewrite (executeTypescriptModule_unresolved _ _ _ _ _ Habs).
        * left. unfold loadConfig.
          by rewrite Hjson, Hjs, Hts, !andb_false_r. }
  split.
  - intros p Hp. destruct Hcases as [->|[[_ ->]|[_ [code ->]]]]; [done| |].
    + by rewrite lookup_delete_ne.
    + by rewrite lookup_insert_ne.
  - intros Habs Hnone.
    destruct Hcases as [->|[[_ ->]|[Hrel _]]]; [done| |congruence].
    by apply delete_id.
Qed.

(** X19: An absolute typed source goes through compiler, artifact and
    loader with one and the same classification: it is compiled for the
    module system of its path, the code is loaded from the artifact with
    the suffix of that module system by the loader of that module system,
    what the loader returns gives the result, and the artifact is gone
    afterwards whether the loader returned or threw. *)
Theorem loadConfig_typed_source_pipeline filePath pkg w code :
  isJson filePath = false →
  isTs filePath = true →
  Path.isAbsolute filePath = true →
  let esm := isESM pkg filePath in
  let format := if esm then Esm else Cjs in
  let tempFile := tempFileOf filePath esm in
  let compiled :=
    {| files := files w;
       requireCache := requireCache w;
       calls := calls w ++ [CallBuildConfig filePath format] |} in
  ext_buildConfig ext filePath format w = Returned code →
  let loaded := loaderOf ext esm tempFile (staged tempFile code compiled) in
  let run := loadConfig ext filePath pkg w in
  (∀ raw, loaded.1 = Returned raw →
          run.1 = Returned (coalesce (optDefault raw) raw))
  ∧ calls run.2
    = calls w ++ [CallBuildConfig filePath format; callOf esm tempFile]
  ∧ files run.2 !! tempFile = None.
Proof.
  intros Hjson Hts Habs esm format tempFile compiled Hbuild loaded run.
  assert (run = executeTypescriptModule ext code filePath esm compiled)
    as ->.
  { subst run. rewrite (loadConfig_typed_source _ _ _ _ Hjson Hts).
    unfold bind, buildConfig. fold esm format. by rewrite Hbuild. }
  rewrite (executeTypescriptModule_run _ _ _ _ _ Habs).
  fold tempFile loaded. simpl.
  split_and!; [by intros raw ->| |apply lookup_delete_eq].
  by rewrite <- (assoc_L (++)).
Qed.

End LoadMore.

(** ** resolveConfigFile: where an explicit path ends up *)

Section ResolveMore.
Import Resolve.

Lemma resolveLoop_absolute_arg args acc :
  (∃ p, p ∈ args ∧ Path.isAbsolute p = true) →
  (Path.resolveLoop args acc).2 = true.
Proof.
  revert acc. induction args as [|a args IH]; intros acc [p [Hin Habs]].
  - by apply elem_of_nil in Hin.
  - simpl. destruct (String.eqb_spec a "") as [->|Hne].
    + apply IH. exists p. split; [|done].
      apply elem_of_cons in Hin as [->|Hin]; [done|done].
    + destruct (Path.isAbsolute a) eqn:Ha; [done|].
      apply IH. exists p. split; [|done].
      apply elem_of_cons in Hin as [->|Hin]; [congruence|done].
Qed.

Lemma resolveLoop_stops args more acc :
  (∃ p, p ∈ args ∧ Path.isAbsolute p = true) →
  Path.resolveLoop (args ++ more) acc = Path.resolveLoop args acc.
Proof.
  revert acc. induction args as [|a args IH]; intros acc [p [Hin Habs]].
  - by apply elem_of_nil in Hin.
  - simpl. destruct (String.eqb_spec a "") as [->|Hne].
    + apply IH. exists p. split; [|done].
      apply elem_of_cons in Hin as [->|Hin]; [done|done].
    + destruct (Path.isAbsolute a) eqn:Ha; [done|].
      apply IH. exists p. split; [|done].
      apply elem_of_cons in Hin as [->|Hin]; [congruence|done].
Qed.

Lemma resolve_absolute cwd args :
  Path.isAbsolute cwd = true → Path.isAbsolute (Path.resolve cwd args) = true.
Proof.
  intros Hcwd. unfold Path.resolve.
  pose proof (resolveLoop_absolute_arg (rev args ++ [cwd]) ""
                ltac:(exists cwd; split; [apply elem_of_app; right; left|done])).
  destruct (Path.resolveLoop _ _) as [resolvedPath resolvedAbsolute].
  simpl in *. by subst.
Qed.

Variable ext : Externals.

(** X20: In a process with an absolute working directory an explicit path always
    resolves to an absolute path. *)
Theorem resolveConfigFile_explicit_absolute cwd configFile commandArgs
    rootDir w p :
  Path.isAbsolute cwd = true →
  config commandArgs = Some p →
  p ≠ "" →
  ∃ resolved,
    resolveConfigFile ext cwd configFile commandArgs rootDir w
    = (Returned (Some resolved), w)
    ∧ Path.isAbsolute resolved = true.
Proof.
  intros Hcwd Hp Hne. unfold resolveConfigFile. rewrite Hp.
  assert (Merge.truthyString p = true) as -> by (by apply truthyString_true).
  destruct (Path.isAbsolute p) eqn:Habs.
  - by exists p.
  - exists (Path.resolve cwd [rootDir; p]). split; [done|].
    by apply resolve_absolute.
Qed.

(** X21: With an absolute [rootDir] the outcome for an explicit path is the same
    in every working directory. *)
Theorem resolveConfigFile_ignores_cwd cwd1 cwd2 configFile commandArgs
    rootDir w p :
  Path.isAbsolute rootDir = true →
  config commandArgs = Some p →
  p ≠ "" →
  resolveConfigFile ext cwd1 configFile commandArgs rootDir w
  = resolveConfigFile ext cwd2 configFile commandArgs rootDir w.
Proof.
  intros Hroot Hp Hne. unfold resolveConfigFile. rewrite Hp.
  assert (Merge.truthyString p = true) as -> by (by apply truthyString_true).
  destruct (Path.isAbsolute p) eqn:Habs; [done|].
  unfold Path.resolve. do 3 f_equal.
  assert (∃ q, q ∈ rev [rootDir; p] ∧ Path.isAbsolute q = true) as Hex.
  { exists rootDir. split; [|done]. simpl. right. left. }
  by rewrite !(resolveLoop_stops _ _ _ Hex).
Qed.

End ResolveMore.

(** ** getUserConfig: what the caller gets for each state of the file *)

Section UserFacts.
Import Resolve User.

Variable ext : Externals.
Variable numberToString : Z → string.
Variable elapsed : Z.

Lemma existsSync_true path w :
  existsSync path w = true ↔ is_Some (files w !! path).
Proof. unfold existsSync. apply bool_decide_eq_true. Qed.

(** X22: Without a configuration file path the call resolves to the
    configuration with no plugins, whatever the mode; no file is read,
    nothing is loaded, and one debug line is logged. *)
Theorem getUserConfig_without_file rootDir commandArgs pkg w :
  getUserConfig ext numberToString elapsed rootDir commandArgs pkg "" w
  = (Resolved emptyConfig, w, [(LogDebug, noConfigMessage)]).
Proof.
  unfold getUserConfig. simpl. unfold Merge.mergeModeConfig. done.
Qed.

(** X23: A path to a file that does not exist ends the process with status
    1 after one error line that names the path; nothing is loaded and no
    other file is looked for. *)
Theorem getUserConfig_missing_file rootDir commandArgs pkg
    configFilePath w :
  configFilePath ≠ "" →
  files w !! configFilePath = None →
  getUserConfig ext numberToString elapsed rootDir commandArgs pkg
    configFilePath w
  = (Exited 1, w,
     [(LogError, "config file(" +:+ configFilePath +:+ ") is not exist")]).
Proof.
  intros Hne Hnone. unfold getUserConfig.
  assert (Merge.truthyString configFilePath = true) as ->
    by (by apply truthyString_true).
  assert (existsSync configFilePath w = false) as ->.
  { apply not_true_is_false. rewrite existsSync_true, Hnone.
    by intros [? ?]. }
  done.
Qed.

(** X24: When loading throws an [Error], the process ends with status 1
    after a warning that names the file and an error line with the stack of
    the error; the merge is not reached. *)
Theorem getUserConfig_load_error rootDir commandArgs pkg configFilePath w
    message stack w' :
  configFilePath ≠ "" →
  is_Some (files w !! configFilePath) →
  Load.loadConfig ext configFilePath pkg w
  = (Threw (ThrownError message stack), w') →
  getUserConfig ext numberToString elapsed rootDir commandArgs pkg
    configFilePath w
  = (Exited 1, w',
     [(LogWarn, "Fail to load config file " +:+ configFilePath);
      (LogError, stack)]).
Proof.
  intros Hne Hsome Hload. unfold getUserConfig.
  assert (Merge.truthyString configFilePath = true) as ->
    by (by apply truthyString_true).
  assert (existsSync configFilePath w = true) as ->
    by (by apply existsSync_true).
  simpl. by rewrite Hload.
Qed.

(** X25: When loading throws a value that is not an [Error], a warning
    that names the file is logged first. For [undefined] or [null] the
    process is then not ended: asking the thrown value for its string form
    throws a [TypeError], with which the call is rejected; the same holds
    for an object that has a [toString] property of its own, which is not a
    function. A string is logged as it is, a boolean as [true] or [false],
    a number as the runtime prints it, any other object as
    [[object Object]], and the process ends with status 1. *)
Theorem getUserConfig_load_throws_value rootDir commandArgs pkg
    configFilePath w v w' :
  configFilePath ≠ "" →
  is_Some (files w !! configFilePath) →
  Load.loadConfig ext configFilePath pkg w = (Threw (ThrownValue v), w') →
  let warned := [(LogWarn, "Fail to load config file " +:+ configFilePath)] in
  let run :=
    getUserConfig ext numberToString elapsed rootDir commandArgs pkg
      configFilePath w in
  let exits text := (Exited 1, w', warned ++ [(LogError, text)]) in
  (nullish v = true →
   run = (Rejected (cannotRead v "toString"), w', warned))
  ∧ (∀ text, v = VStr text → run = exits text)
  ∧ (∀ b, v = VBool b → run = exits (if b then "true" else "false"))
  ∧ (∀ n, v = VNum n → run = exits (numberToString n))
  ∧ (∀ m, v = VObj m →
          run = if bool_decide (is_Some (m !! "toString"))
                then (Rejected (typeError "err.toString is not a function"),
                      w', warned)
                else exits "[object Object]").
Proof.
  intros Hne Hsome Hload warned run exits. subst run. unfold getUserConfig.
  assert (Merge.truthyString configFilePath = true) as ->
    by (by apply truthyString_true).
  assert (existsSync configFilePath w = true) as ->
    by (by apply existsSync_true).
  simpl. rewrite Hload. split_and!.
  - by destruct v.
  - by intros text ->.
  - by intros [] ->.
  - by intros n ->.
  - intros m ->. simpl. by destruct (bool_decide _).
Qed.

(** X26: When loading returns a value that is a [UserConfig], the call
    resolves to that configuration merged with the mode of the command
    line; the only line logged is the one of [loadConfig] for a typed
    source. *)
Theorem getUserConfig_loaded rootDir commandArgs pkg configFilePath w
    loaded w' userConfig :
  configFilePath ≠ "" →
  is_Some (files w !! configFilePath) →
  Load.loadConfig ext configFilePath pkg w = (Returned loaded, w') →
  asUserConfig loaded = Some userConfig →
  getUserConfig ext numberToString elapsed rootDir commandArgs pkg
    configFilePath w
  = (Resolved (Merge.mergeModeConfig (mode commandArgs) userConfig), w',
     if negb (Load.isJson configFilePath) && Load.isTs configFilePath
     then [(LogDebug,
            "bundled module file loaded in " +:+ numberToString elapsed
              +:+ "m")]
     else []).
Proof.
  intros Hne Hsome Hload Hcfg. unfold getUserConfig.
  assert (Merge.truthyString configFilePath = true) as ->
    by (by apply truthyString_true).
  assert (existsSync configFilePath w = true) as ->
    by (by apply existsSync_true).
  simpl. rewrite Hload.
  assert (nullish loaded = false) as -> by (by destruct loaded).
  by rewrite Hcfg.
Qed.

(** X27: A file of a format [loadConfig] does not know loads as
    [undefined], and the call is rejected with the [TypeError] of reading
    [modeConfig] from it: the default configuration is not used. *)
Theorem getUserConfig_unknown_format rootDir commandArgs pkg
    configFilePath w :
  configFilePath ≠ "" →
  is_Some (files w !! configFilePath) →
  Load.isJson configFilePath = false →
  Load.isJs configFilePath = false →
  Load.isTs configFilePath = false →
  getUserConfig ext numberToString elapsed rootDir commandArgs pkg
    configFilePath w
  = (Rejected (cannotRead VUndefined "modeConfig"), w, []).
Proof.
  intros Hne Hsome Hjson Hjs Hts. unfold getUserConfig.
  assert (Merge.truthyString configFilePath = true) as ->
    by (by apply truthyString_true).
  assert (existsSync configFilePath w = true) as ->
    by (by apply existsSync_true).
  simpl. unfold Load.loadConfig, loadConfigLog.
  by rewrite Hjson, Hjs, Hts, !andb_false_r.
Qed.

End UserFacts.

(** ** The further properties on the sample data *)

Section MoreExamples.
Import Merge JsString Execute Load Resolve User.

Lemma merge_plugins_length_example :
  length (plugins (mergeModeConfig "dev" Samples.exampleConfig)) = 3%nat.
Proof.
  rewrite (merge_plugins_length "dev" Samples.exampleConfig
             {[ "dev" := Samples.devOverride ]} Samples.devOverride
             Samples.devPlugins ltac:(discriminate) eq_refl eq_refl eq_refl).
  reflexivity.
Defined.

Lemma merge_plugins_identifiers_example :
  "C" ∈ map pluginKey (plugins (mergeModeConfig "dev" Samples.exampleConfig)).
Proof.
  apply (merge_plugins_identifiers "dev" Samples.exampleConfig
           {[ "dev" := Samples.devOverride ]} Samples.devOverride
           Samples.devPlugins ltac:(discriminate) eq_refl eq_refl eq_refl).
  right. compute_done.
Defined.

Lemma merge_plugins_untouched_example :
  plugins (mergeModeConfig "dev" Samples.exampleConfig) !! 0%nat
  = Some (PluginName "A").
Proof.
  apply (merge_plugins_untouched "dev" Samples.exampleConfig
           {[ "dev" := Samples.devOverride ]} Samples.devOverride
           Samples.devPlugins ltac:(discriminate) eq_refl eq_refl eq_refl).
  - reflexivity.
  - compute_done.
Defined.

Lemma merge_plugins_mode_entries_example :
  PluginPair "B" (Samples.optX 2)
  ∈ plugins (mergeModeConfig "dev" Samples.exampleConfig).
Proof.
  apply (merge_plugins_mode_entries_present "dev" Samples.exampleConfig
           {[ "dev" := Samples.devOverride ]} Samples.devOverride
           Samples.devPlugins ltac:(discriminate) eq_refl eq_refl eq_refl).
  - compute_done.
  - left.
Defined.

Lemma merge_twice_example :
  mergeModeConfig "dev" (mergeModeConfig "dev" Samples.exampleConfig)
  = mergeModeConfig "dev" Samples.exampleConfig.
Proof.
  apply merge_twice_is_merge_once.
  intros mc override [= <-] Hov.
  rewrite lookup_singleton_eq in Hov. injection Hov as <-.
  split; [reflexivity|]. intros modePlugins [= <-]. compute_done.
Defined.

Lemma forEachBody_in_range_example :
  let pluginIndex := indexOf ["A"; "B"] "B" in
  (-1 < pluginIndex → pluginIndex < 2)
  ∧ (2 ≤ length (forEachBody ["A"; "B"] Samples.basePlugins
                   (PluginName "B")))%nat.
Proof.
  apply (forEachBody_in_range ["A"; "B"] Samples.basePlugins (PluginName "B")).
  simpl. lia.
Defined.

Lemma tempFileOf_inj_example :
  "/proj/build.config.ts" = "/proj/build.config.ts" ∧ true = true.
Proof.
  apply (tempFileOf_inj "/proj/build.config.ts" true
           "/proj/build.config.ts" true).
  reflexivity.
Defined.

Lemma execute_returns_default_example :
  let run :=
    executeTypescriptModule (Samples.sampleExt Samples.exportsDefault)
      "export default { a: 1 };" "/proj/build.config.ts" true
      Samples.sampleWorld in
  run.1 = Returned (VObj {[ "a" := VNum 1 ]})
  ∧ requireCache run.2 = ∅
  ∧ calls run.2 = [CallDynamicImport "/proj/build.config.ts.mjs"].
Proof.
  exact (execute_returns_default_or_whole
           (Samples.sampleExt Samples.exportsDefault)
           "export default { a: 1 };" "/proj/build.config.ts" true
           Samples.sampleWorld
           (staged "/proj/build.config.ts.mjs" "export default { a: 1 };"
              Samples.sampleWorld)
           (VObj {[ "default" := VObj {[ "a" := VNum 1 ]} ]}) ∅
           eq_refl eq_refl).
Defined.

Lemma execute_rethrows_unrelated_example :
  (executeTypescriptModule (Samples.sampleExt MoreSamples.failsPlainly)
     "x;" "/proj/build.config.ts" false Samples.sampleWorld).1
  = Threw (ThrownError "x is not defined" "ReferenceError: x is not defined").
Proof.
  apply (execute_rethrows_unrelated_error
           (Samples.sampleExt MoreSamples.failsPlainly)
           "x;" "/proj/build.config.ts" false Samples.sampleWorld
           (staged "/proj/build.config.ts.cjs" "x;" Samples.sampleWorld)
           "x is not defined" "ReferenceError: x is not defined" ∅);
    reflexivity.
Defined.

Lemma execute_rewrites_first_mention_example :
  ∃ preceding following,
    "Cannot parse /proj/build.config.ts.mjs"
    = preceding +:+ "/proj/build.config.ts.mjs" +:+ following
    ∧ (∀ before after,
         "Cannot parse /proj/build.config.ts.mjs"
         = before +:+ "/proj/build.config.ts.mjs" +:+ after →
         (String.length preceding ≤ String.length before)%nat)
    ∧ thrownMessage
        (executeTypescriptModule
           (Samples.sampleExt MoreSamples.failsNamingOnce)
           "{" "/proj/build.config.ts" true Samples.sampleWorld).1
      = Some (preceding +:+ "/proj/build.config.ts" +:+ following)
    ∧ includes (preceding +:+ "/proj/build.config.ts" +:+ following)
        "/proj/build.config.ts" = true.
Proof.
  apply (execute_rewrites_first_mention
           (Samples.sampleExt MoreSamples.failsNamingOnce)
           "{" "/proj/build.config.ts" true Samples.sampleWorld
           (staged "/proj/build.config.ts.mjs" "{" Samples.sampleWorld)
           "Cannot parse /proj/build.config.ts.mjs" "SyntaxError" ∅);
    reflexivity.
Defined.

Lemma execute_ignores_stale_state_example :
  executeTypescriptModule (Samples.sampleExt Samples.exportsDefault)
    "exports.default = {};" "/proj/build.config.ts" false
    {| files :=
         <[ "/proj/build.config.ts.cjs" := "exports.default = 0;" ]>
           (files Samples.sampleWorld);
       requireCache := {[ "/proj/build.config.ts.cjs" := VNum 0 ]};
       calls := [] |}
  = executeTypescriptModule (Samples.sampleExt Samples.exportsDefault)
      "exports.default = {};" "/proj/build.config.ts" false
      Samples.sampleWorld.
Proof.
  exact (proj1 (execute_ignores_stale_state
                  (Samples.sampleExt Samples.exportsDefault)
                  "exports.default = {};" "/proj/build.config.ts" false
                  Samples.sampleWorld "exports.default = 0;" (VNum 0))
           _ eq_refl).
Defined.

Lemma loadConfig_unknown_suffix_example :
  loadConfig (Samples.sampleExt Samples.exportsDefault) "/proj/build.yaml"
    Samples.plainPkg MoreSamples.scriptWorld
  = (Returned VUndefined, MoreSamples.scriptWorld).
Proof.
  apply loadConfig_unknown_suffix; reflexivity.
Defined.

Lemma loadConfig_plain_script_example :
  loadConfig (Samples.sampleExt MoreSamples.exportsNamed)
    "/proj/build.config.js" Samples.modulePkg MoreSamples.scriptWorld
  = (Returned VUndefined,
     {| files := files MoreSamples.scriptWorld;
        requireCache := ∅;
        calls := [CallDynamicImport "/proj/build.config.js"] |}).
Proof.
  rewrite (loadConfig_plain_script_result
             (Samples.sampleExt MoreSamples.exportsNamed)
             "/proj/build.config.js" Samples.modulePkg MoreSamples.scriptWorld
             eq_refl eq_refl).
  reflexivity.
Defined.

Lemma loadConfig_compile_failure_example :
  loadConfig MoreSamples.brokenCompilerExt "/proj/build.config.ts"
    Samples.plainPkg MoreSamples.scriptWorld
  = (Threw MoreSamples.compileError,
     {| files := files MoreSamples.scriptWorld;
        requireCache := ∅;
        calls := [CallBuildConfig "/proj/build.config.ts" Cjs] |}).
Proof.
  apply (loadConfig_compile_failure MoreSamples.brokenCompilerExt
           "/proj/build.config.ts" Samples.plainPkg MoreSamples.scriptWorld
           MoreSamples.compileError); reflexivity.
Defined.

Lemma resolveConfigFile_explicit_absolute_example :
  ∃ resolved,
    resolveConfigFile (Samples.sampleExt Samples.exportsDefault) "/home/user"
      (inl "build.json") {| config := Some "conf/../cfg.ts"; mode := "" |}
      "proj" Samples.sampleWorld
    = (Returned (Some resolved), Samples.sampleWorld)
    ∧ Path.isAbsolute resolved = true.
Proof.
  apply (resolveConfigFile_explicit_absolute
           (Samples.sampleExt Samples.exportsDefault) "/home/user"
           (inl "build.json") {| config := Some "conf/../cfg.ts"; mode := "" |}
           "proj" Samples.sampleWorld "conf/../cfg.ts");
    [reflexivity|reflexivity|discriminate].
Defined.

Example resolve_relative_rootDir :
  Path.resolve "/home/user" ["proj"; "conf/../cfg.ts"]
  = "/home/user/proj/cfg.ts".
Proof. reflexivity. Qed.

Lemma resolveConfigFile_ignores_cwd_example :
  resolveConfigFile (Samples.sampleExt Samples.exportsDefault) "/home/user"
    (inl "build.json") {| config := Some "cfg.ts"; mode := "" |}
    "/proj" Samples.sampleWorld
  = resolveConfigFile (Samples.sampleExt Samples.exportsDefault) "/tmp"
      (inl "build.json") {| config := Some "cfg.ts"; mode := "" |}
      "/proj" Samples.sampleWorld.
Proof.
  apply (resolveConfigFile_ignores_cwd
           (Samples.sampleExt Samples.exportsDefault) "/home/user" "/tmp"
           (inl "build.json") {| config := Some "cfg.ts"; mode := "" |}
           "/proj" Samples.sampleWorld "cfg.ts");
    [reflexivity|reflexivity|discriminate].
Defined.

Lemma getUserConfig_missing_file_example :
  getUserConfig (Samples.sampleExt Samples.exportsDefault) pretty 7
    "/proj" MoreSamples.devArgs Samples.plainPkg
    "/proj/missing.json" Samples.sampleWorld
  = (Exited 1, Samples.sampleWorld,
     [(LogError, "config file(/proj/missing.json) is not exist")]).
Proof.
  apply getUserConfig_missing_file; [discriminate|reflexivity].
Defined.

Lemma getUserConfig_load_error_example :
  getUserConfig (Samples.sampleExt MoreSamples.failsPlainly) pretty 7
    "/proj" MoreSamples.devArgs Samples.plainPkg
    "/proj/build.config.js" MoreSamples.scriptWorld
  = (Exited 1,
     {| files := files MoreSamples.scriptWorld;
        requireCache := ∅;
        calls := [CallRequire "/proj/build.config.js"] |},
     [(LogWarn, "Fail to load config file /proj/build.config.js");
      (LogError, "ReferenceError: x is not defined")]).
Proof.
  apply (getUserConfig_load_error
           (Samples.sampleExt MoreSamples.failsPlainly) pretty 7
           "/proj" MoreSamples.devArgs
           Samples.plainPkg "/proj/build.config.js" MoreSamples.scriptWorld
           "x is not defined");
    [discriminate|by eexists|reflexivity].
Defined.

Lemma getUserConfig_load_throws_undefined_example :
  getUserConfig (Samples.sampleExt MoreSamples.throwsUndefined) pretty 7
    "/proj" MoreSamples.devArgs Samples.plainPkg
    "/proj/build.config.js" MoreSamples.scriptWorld
  = (Rejected (cannotRead VUndefined "toString"),
     {| files := files MoreSamples.scriptWorld;
        requireCache := ∅;
        calls := [CallRequire "/proj/build.config.js"] |},
     [(LogWarn, "Fail to load config file /proj/build.config.js")]).
Proof.
  apply (getUserConfig_load_throws_value
           (Samples.sampleExt MoreSamples.throwsUndefined) pretty 7
           "/proj" MoreSamples.devArgs
           Samples.plainPkg "/proj/build.config.js" MoreSamples.scriptWorld
           VUndefined);
    [discriminate|by eexists|reflexivity|reflexivity].
Defined.

Lemma getUserConfig_loaded_example :
  getUserConfig (Samples.sampleExt MoreSamples.exportsConfig) pretty 7
    "/proj" MoreSamples.devArgs Samples.plainPkg
    "/proj/build.config.ts" MoreSamples.scriptWorld
  = (Resolved
       {| plugins := [PluginName "A"; PluginName "C"];
          modeConfig :=
            Some {[ "dev" :=
                      {| pc_plugins := Some [PluginName "C"];
                         pc_modeConfig := None;
                         pc_fields := ∅ |} ]};
          fields := ∅ |},
     {| files := files MoreSamples.scriptWorld;
        requireCache := ∅;
        calls := [CallBuildConfig "/proj/build.config.ts" Cjs;
                  CallRequire "/proj/build.config.ts.cjs"] |},
     [(LogDebug, "bundled module file loaded in 7m")]).
Proof.
  rewrite (getUserConfig_loaded
             (Samples.sampleExt MoreSamples.exportsConfig) pretty 7
             "/proj" MoreSamples.devArgs
             Samples.plainPkg "/proj/build.config.ts" MoreSamples.scriptWorld
             MoreSamples.configValue
             {| files := files MoreSamples.scriptWorld;
                requireCache := ∅;
                calls := [CallBuildConfig "/proj/build.config.ts" Cjs;
                          CallRequire "/proj/build.config.ts.cjs"] |}
             {| plugins := [PluginName "A"];
                modeConfig :=
                  Some {[ "dev" :=
                            {| pc_plugins := Some [PluginName "C"];
                               pc_modeConfig := None;
                               pc_fields := ∅ |} ]};
                fields := ∅ |}
             ltac:(discriminate) ltac:(by eexists)
             ltac:(vm_compute; reflexivity) ltac:(vm_compute; reflexivity)).
  vm_compute. reflexivity.
Defined.

Lemma getUserConfig_unknown_format_example :
  getUserConfig (Samples.sampleExt Samples.exportsDefault) pretty 7
    "/proj" MoreSamples.devArgs Samples.plainPkg
    "/proj/build.yaml" MoreSamples.scriptWorld
  = (Rejected (cannotRead VUndefined "modeConfig"),
     MoreSamples.scriptWorld, []).
Proof.
  apply getUserConfig_unknown_format;
    [discriminate|by eexists|reflexivity..].
Defined.

(** A loaded object without [plugins] is not taken for a configuration. *)
Example asUserConfig_needs_plugins :
  asUserConfig
    (VObj {[ "modeConfig" := VObj {[ "dev" := VObj ∅ ]} ]}) = None.
Proof. vm_compute. reflexivity. Qed.

Lemma suffix_tests_exclusive_example :
  isJs "/proj/build.config.mjs" = true
  ∧ isTs "/proj/build.config.mjs" = false.
Proof.
  split; [reflexivity|].
  apply (proj2 (suffix_tests_exclusive "/proj/build.config.mjs")).
  reflexivity.
Defined.

Lemma loadConfig_preserves_files_example :
  files (loadConfig (Samples.sampleExt Samples.exportsDefault)
           "/proj/build.config.ts" Samples.plainPkg
           MoreSamples.scriptWorld).2
  = files MoreSamples.scriptWorld.
Proof.
  apply (proj2 (loadConfig_preserves_files
                  (Samples.sampleExt Samples.exportsDefault)
                  "/proj/build.config.ts" Samples.plainPkg
                  MoreSamples.scriptWorld)); reflexivity.
Defined.

Lemma loadConfig_typed_source_pipeline_example :
  let run :=
    loadConfig (Samples.sampleExt Samples.exportsDefault)
      "/proj/build.config.ts" Samples.modulePkg MoreSamples.scriptWorld in
  (∀ raw,
     Samples.exportsDefault "/proj/build.config.ts.mjs" = Returned raw →
     run.1 = Returned (coalesce (optDefault raw) raw))
  ∧ calls run.2
    = [CallBuildConfig "/proj/build.config.ts" Esm;
       CallDynamicImport "/proj/build.config.ts.mjs"]
  ∧ files run.2 !! "/proj/build.config.ts.mjs" = None.
Proof.
  exact (loadConfig_typed_source_pipeline
           (Samples.sampleExt Samples.exportsDefault)
           "/proj/build.config.ts" Samples.modulePkg MoreSamples.scriptWorld
           "exports.default = {};" eq_refl eq_refl eq_refl eq_refl).
Defined.

Example toStringValue_examples :
  toStringValue pretty
    (VArr [VNum 1; VNull; VStr "a"; VArr [VNum (-2); VBool true]])
  = Some "1,,a,-2,true"
  ∧ toStringValue pretty (VObj ∅) = Some "[object Object]"
  ∧ toStringValue pretty (VArr [VObj {[ "toString" := VNum 1 ]}]) = None.
Proof. by vm_compute. Qed.

End MoreExamples.
